(** * The handler shadow stack of [mphnd.c]

    A shallow embedding of [src/mphnd/mphnd.c]: the handler frames, the
    shadow stack rooted at [_mph_top], the search [mph_find], the scoped
    installers [mph_linear_handler], [mph_prompt], [mph_under], [mph_mask],
    the yield path and the resume wrappers.

    Handler frames live in C automatic storage and are linked through
    [parent] pointers; here they live in a store indexed by address.  The
    functions that only read the store are Rocq functions of the store; the
    functions that change it or transfer control are program trees, run by
    a small machine that also models the prompt substrate ([mprompt.h]). *)

From Stdlib Require Import ZArith NArith List Bool Lia.
From stdpp Require Import base decidable option list.

Set Default Proof Using "Type".

(** ** Kinds *)

(** [mph_kind_t] is a [const char*] compared by pointer identity.  The three
    built-in kinds are three distinct addresses; every other kind is a user
    kind. *)
Inductive mph_kind_t : Type :=
| MPH_FINALLY
| MPH_UNDER
| MPH_MASK
| UserKind (id : nat).

#[global] Instance mph_kind_eq_dec : EqDecision mph_kind_t.
Proof. solve_decision. Defined.

(** ** Values and frames *)

Definition addr := nat.
Definition mp_prompt_t := nat.
Definition mph_resume_t := nat.

(** The values that travel as [void*]. *)
Inductive val : Type :=
| VNull
| VWord (z : Z)                              (* an integer cast to a pointer *)
| VData (l : nat)                            (* caller-owned data *)
| VLocal (a : addr)                          (* the alloca region of [mph_start] for frame [a] *)
| VHandler (a : addr)                        (* a [mph_handler_t*] *)
| VHdataField (a : addr)                     (* [&h->hdata] *)
| VResumeEnv (result : val) (unwind : bool). (* a [mph_resume_env_t*] *)

#[global] Instance val_eq_dec : EqDecision val.
Proof. solve_decision. Defined.

(** The [prompt] field: [mph_under] and [mph_mask] never assign it. *)
Inductive prompt_field : Type :=
| PromptUninit
| PromptNull
| PromptSome (p : mp_prompt_t).

(** [mph_handler_t], the common header. *)
Record mph_handler_t : Type := mkHandler {
  parent : option addr;
  prompt : prompt_field;
  kind : mph_kind_t;
  hdata : val
}.

(** What follows the header in storage: nothing for a plain
    [mph_handler_t], [under] for a [mph_handler_under_t], [mask] and [from]
    for a [mph_handler_mask_t]. *)
Inductive frame_tail : Type :=
| TailNone
| TailUnder (under : mph_kind_t)
| TailMask (mask : mph_kind_t) (mfrom : N).

Record frame : Type := mkFrame {
  handler : mph_handler_t;
  tail : frame_tail
}.

(** The cast read [h->under] of [mph_find]: the [mph_kind_t] right after
    the header.  In a [mph_handler_mask_t] that word is the [mask] field; a
    plain handler has no such word. *)
Definition read_under (f : frame) : option mph_kind_t :=
  match tail f with
  | TailUnder u => Some u
  | TailMask m _ => Some m
  | TailNone => None
  end.

(** The cast reads [m->mask] and [m->from] of [mph_find]: only a
    [mph_handler_mask_t] has both words. *)
Definition read_mask (f : frame) : option (mph_kind_t * N) :=
  match tail f with
  | TailMask m fr => Some (m, fr)
  | _ => None
  end.

Definition set_parent (p : option addr) (f : frame) : frame :=
  mkFrame (mkHandler p (prompt (handler f)) (kind (handler f)) (hdata (handler f)))
          (tail f).

(** ** The store and the shadow stack anchor *)

Record mem : Type := mkMem {
  heap : list frame;
  _mph_top : option addr
}.

Definition set_top (t : option addr) (m : mem) : mem := mkMem (heap m) t.

Definition store_parent (a : addr) (p : option addr) (m : mem) : mem :=
  match heap m !! a with
  | Some f => mkMem (<[a := set_parent p f]> (heap m)) (_mph_top m)
  | None => m
  end.

(** A frame in automatic storage gets the next free address.  Addresses
    are not reused: the frame of a function that has returned stays in the
    store, where only a dangling pointer can reach it. *)
Definition alloc (f : frame) (m : mem) : addr * mem :=
  (length (heap m), mkMem (heap m ++ [f]) (_mph_top m)).

(** Results of the operations that read through pointers. *)
Inductive res (A : Type) : Type :=
| Ok (a : A)
| Undefined      (* a read through a dangling or mistyped pointer *)
| OutOfFuel.       (* the loop bound ran out *)
Arguments Ok {A} a.
Arguments Undefined {A}.
Arguments OutOfFuel {A}.

Definition mph_is_prompt_handler (f : frame) : res bool :=
  match prompt (handler f) with
  | PromptUninit => Undefined
  | PromptNull => Ok false
  | PromptSome _ => Ok true
  end.

Definition mph_top (m : mem) : option addr := _mph_top m.

Definition mph_parent (m : mem) (h : option addr) : res (option addr) :=
  match h with
  | None => Ok (mph_top m)
  | Some a => match heap m !! a with
              | Some f => Ok (parent (handler f))
              | None => Undefined
              end
  end.

Definition mph_kind (m : mem) (h : addr) : res mph_kind_t :=
  match heap m !! h with
  | Some f => Ok (kind (handler f))
  | None => Undefined
  end.

Definition mph_data (m : mem) (h : addr) : res val :=
  match heap m !! h with
  | Some f => Ok (hdata (handler f))
  | None => Undefined
  end.

(** ** Find innermost handler *)

(** [size_t] counts modulo 2^64. *)
Definition SIZE_MODULUS : N := 2 ^ 64.

(** The inner [do { h = h->parent; } while (h != NULL && h->kind != ukind)]
    of [mph_find], started at frame [h]. *)
Fixpoint skip_to (fuel : nat) (hp : list frame) (ukind : mph_kind_t) (h : addr)
  : res (option addr) :=
  match fuel with
  | O => OutOfFuel
  | S n =>
    match hp !! h with
    | None => Undefined
    | Some f =>
      match parent (handler f) with
      | None => Ok None
      | Some p =>
        match hp !! p with
        | None => Undefined
        | Some fp =>
          if decide (kind (handler fp) = ukind) then Ok (Some p)
          else skip_to n hp ukind p
        end
      end
    end
  end.

(** The [while] loop of [mph_find] with its two variables [h] and
    [mask_level]; [fuel] bounds the number of iterations. *)
Fixpoint find_loop (fuel : nat) (hp : list frame) (k : mph_kind_t)
    (h : option addr) (mask_level : N) : res (option addr) :=
  match fuel with
  | O => OutOfFuel
  | S n =>
    match h with
    | None => Ok None
    | Some a =>
      match hp !! a with
      | None => Undefined
      | Some f =>
        let hkind := kind (handler f) in
        if decide (k = hkind) then
          if (mask_level <=? 0)%N then Ok (Some a)
          else find_loop n hp k (parent (handler f)) (mask_level - 1)%N
        else if decide (hkind = MPH_UNDER) then
          match read_under f with
          | None => Undefined
          | Some ukind =>
            match skip_to n hp ukind a with
            | Ok None => Ok None
            | Ok (Some a') =>
              match hp !! a' with
              | Some f' => find_loop n hp k (parent (handler f')) mask_level
              | None => Undefined
              end
            | Undefined => Undefined
            | OutOfFuel => OutOfFuel
            end
          end
        else if decide (hkind = MPH_MASK) then
          match read_mask f with
          | None => Undefined
          | Some (m, fr) =>
            let mask_level' :=
              if bool_decide (m = k) && (fr <=? mask_level)%N
              then ((mask_level + 1) mod SIZE_MODULUS)%N
              else mask_level in
            find_loop n hp k (parent (handler f)) mask_level'
          end
        else find_loop n hp k (parent (handler f)) mask_level
      end
    end
  end.

Definition mph_find (fuel : nat) (m : mem) (k : mph_kind_t) : res (option addr) :=
  find_loop fuel (heap m) k (_mph_top m) 0%N.

(** ** Program trees *)

(** An unwind function is passed as a code pointer: the one function of
    this file, [mph_unwind_fun], or a function of the user. *)
Inductive mph_unwind_fun_t : Type :=
| Fn_mph_unwind_fun
| Fn_user (n : nat).

(** [class mph_unwind_exception]. *)
Record mph_unwind_exception : Type := mkUnwind {
  target : addr;
  ufun : mph_unwind_fun_t;
  uarg : val
}.

#[global] Instance mph_unwind_fun_eq_dec : EqDecision mph_unwind_fun_t.
Proof. solve_decision. Defined.

#[global] Instance mph_unwind_exception_eq_dec : EqDecision mph_unwind_exception.
Proof. solve_decision. Defined.

(** The code that changes the store or transfers control is a tree of
    primitive operations.  [Get] and [Put] read and write the store;
    [Throw] and [TryCatch] are the C++ [throw] and [try]/[catch]; the
    [Mp...] nodes are the calls into the prompt substrate. *)
Inductive prog : Type :=
| Ret (v : val)
| Crash
| Get (k : mem -> prog)
| Put (m : mem) (k : prog)
| CallUser (f : nat) (hd arg : val) (k : val -> prog)
| Throw (e : mph_unwind_exception)
| TryCatch (body : prog) (catch : mph_unwind_exception -> prog) (k : val -> prog)
| MpPrompt (start : mp_prompt_t -> prog) (k : val -> prog)
| MpYield (multi : bool) (p : mp_prompt_t) (f : mph_resume_t -> prog) (k : val -> prog)
| MpResume (tailcall : bool) (r : mph_resume_t) (arg : val) (k : val -> prog)
| MpResumeDrop (r : mph_resume_t) (k : prog)
| MpResumeShouldUnwind (r : mph_resume_t) (k : bool -> prog).

(** Sequencing: run [t], then [g] on its value. *)
Fixpoint bind (t : prog) (g : val -> prog) : prog :=
  match t with
  | Ret v => g v
  | Crash => Crash
  | Get k => Get (fun m => bind (k m) g)
  | Put m k => Put m (bind k g)
  | CallUser f hd arg k => CallUser f hd arg (fun v => bind (k v) g)
  | Throw e => Throw e
  | TryCatch body catch k => TryCatch body catch (fun v => bind (k v) g)
  | MpPrompt start k => MpPrompt start (fun v => bind (k v) g)
  | MpYield multi p f k => MpYield multi p f (fun v => bind (k v) g)
  | MpResume tl r arg k => MpResume tl r arg (fun v => bind (k v) g)
  | MpResumeDrop r k => MpResumeDrop r (bind k g)
  | MpResumeShouldUnwind r k => MpResumeShouldUnwind r (fun b => bind (k b) g)
  end.

Notation "'let*' x ':=' t 'in' g" := (bind t (fun x => g))
  (at level 10, x name, t at level 100, g at level 200).
Notation "t ;;; g" := (bind t (fun _ => g))
  (at level 90, right associativity).

Definition mph_start_fun_t := val -> val -> prog.
Definition mph_yield_fun_t := mph_resume_t -> val -> val -> prog.

(** [struct mph_start_env]. *)
Record mph_start_env : Type := mkStartEnv {
  env_kind : mph_kind_t;
  hdata_size : N;
  env_body : mph_start_fun_t;
  env_arg : val
}.

(** [mph_yield_env_t]. *)
Record mph_yield_env_t : Type := mkYieldEnv {
  yenv_hdata : val;
  yenv_fun : mph_yield_fun_t;
  yenv_arg : val
}.

(** Read the frame at [h], or crash on a dangling pointer. *)
Definition load (h : addr) (k : frame -> prog) : prog :=
  Get (fun m => match heap m !! h with Some f => k f | None => Crash end).

(** A local variable of frame type: fresh storage, initialised by [mk]. *)
Definition local_frame (mk : addr -> frame) (k : addr -> prog) : prog :=
  Get (fun m => Put (snd (alloc (mk (length (heap m))) m)) (k (length (heap m)))).

Section Code.

(** [MP_HAS_TRY]: the file compiled as C++ (1) or as C (0). *)
Variable MP_HAS_TRY : bool.

(** *** Linear handlers without a prompt *)

(** The entry of [mph_with_handler(f)]: [f->parent = _mph_top; _mph_top = f]. *)
Definition push_handler (f : addr) (k : prog) : prog :=
  Get (fun m => Put (set_top (Some f) (store_parent f (_mph_top m) m)) k).

(** The C exit of [mph_with_handler(f)]: [_mph_top = f->parent]. *)
Definition pop_handler (f : addr) : prog :=
  load f (fun fr => Get (fun m => Put (set_top (parent (handler fr)) m) (Ret VNull))).

(** The destructor of [mph_raii_with_handler_t]. *)
Definition raii_destructor (f : addr) : prog :=
  Get (fun m =>
    if decide (_mph_top m = Some f) then pop_handler f else Crash).

(** [{mph_with_handler(f){ body }}].  The C++ object runs its destructor
    when the block is left, by return or by exception; the C [for] loop
    runs its exit expression after the body only. *)
Definition mph_with_handler (f : addr) (body : prog) : prog :=
  if MP_HAS_TRY then
    push_handler f
      (TryCatch body
         (fun e => raii_destructor f ;;; Throw e)
         (fun result => raii_destructor f ;;; Ret result))
  else
    push_handler f (let* result := body in pop_handler f ;;; Ret result).

Definition mph_linear_handler (k : mph_kind_t) (hd : val) (fn : mph_start_fun_t)
    (arg : val) : prog :=
  local_frame (fun _ => mkFrame (mkHandler None PromptNull k hd) TailNone)
    (fun h => mph_with_handler h (load h (fun fr => fn (hdata (handler fr)) arg))).

(** *** Abort *)

Definition mph_abort_fun (r : mph_resume_t) (arg : val) : prog :=
  MpResumeDrop r (Ret arg).

(** [mph_assert(mph_is_prompt_handler(h))]: with a null [prompt] the
    assertion fails.  With a [prompt] that was never assigned the code
    reads an indeterminate value and has no defined behaviour; the model
    stops there too and says nothing of what the code then does. *)
Definition mph_abort_to (h : addr) (arg : val) : prog :=
  load h (fun fr =>
    match prompt (handler fr) with
    | PromptSome p => MpYield false p (fun r => mph_abort_fun r arg) Ret
    | _ => Crash
    end).

(** *** Unwind *)

Definition mph_unwind_to (tgt : addr) (fn : mph_unwind_fun_t) (arg : val) : prog :=
  if MP_HAS_TRY then Throw (mkUnwind tgt fn arg)
  else mph_abort_to tgt arg ;;; Ret VNull.

(** *** Full prompt handler *)

Definition mph_unwind_fun (hd arg : val) : prog := Ret arg.

(** The call [e.fun(hdata, e.arg)] through the code pointer. *)
Definition call_unwind_fun (fn : mph_unwind_fun_t) (hd arg : val) : prog :=
  match fn with
  | Fn_mph_unwind_fun => mph_unwind_fun hd arg
  | Fn_user n => CallUser n hd arg Ret
  end.

(** The [catch] clause of [mph_start] for the frame [h]. *)
Definition start_catch (h : addr) (hd : val) (e : mph_unwind_exception) : prog :=
  if decide (target e <> h) then Throw e
  else call_unwind_fun (ufun e) hd (uarg e).

Definition mph_start (p : mp_prompt_t) (env : mph_start_env) : prog :=
  local_frame
    (fun h => mkFrame (mkHandler None (PromptSome p) (env_kind env) (VLocal h)) TailNone)
    (fun h =>
       if MP_HAS_TRY then
         TryCatch (mph_with_handler h (env_body env (VLocal h) (env_arg env)))
                  (start_catch h (VLocal h))
                  Ret
       else mph_with_handler h (env_body env (VLocal h) (env_arg env))).

Definition mph_prompt (k : mph_kind_t) (size : N) (fn : mph_start_fun_t) (arg : val)
  : prog :=
  MpPrompt (fun p => mph_start p (mkStartEnv k size fn arg)) Ret.

(** *** Yield *)

Definition mph_yield_fun (r : mph_resume_t) (env : mph_yield_env_t) : prog :=
  yenv_fun env r (yenv_hdata env) (yenv_arg env).

(** The code of [mph_yield_to_internal] after the substrate yield has
    returned [renv] into it. *)
Definition yield_relink (h : addr) (yield_top : option addr) (renv : val) : prog :=
  Get (fun m => Put (set_top yield_top m)
    (Get (fun m1 =>
       match heap m1 !! h with
       | None => Crash
       | Some _ =>
         Put (store_parent h (_mph_top m1) m1)
           match renv with
           | VResumeEnv result unwind =>
             if unwind then mph_unwind_to h Fn_mph_unwind_fun result ;;; Ret VNull
             else Ret result
           | _ => Crash
           end
       end))).

(** The assertion on [h] is as in [mph_abort_to]: a null [prompt] fails
    it, and for a [prompt] never assigned the model stops without saying
    what the code does. *)
Definition mph_yield_to_internal (once : bool) (h : addr) (fn : mph_yield_fun_t)
    (arg : val) : prog :=
  load h (fun fr =>
    match prompt (handler fr) with
    | PromptSome p =>
      Get (fun m =>
        let yield_top := _mph_top m in
        Put (set_top (parent (handler fr)) m)
          (MpYield (negb once) p
             (fun r => mph_yield_fun r (mkYieldEnv (VHdataField h) fn arg))
             (yield_relink h yield_top)))
    | _ => Crash
    end).

Definition mph_yield_to (h : addr) (fn : mph_yield_fun_t) (arg : val) : prog :=
  mph_yield_to_internal true h fn arg.

Definition mph_myield_to (h : addr) (fn : mph_yield_fun_t) (arg : val) : prog :=
  mph_yield_to_internal false h fn arg.

(** *** Resuming *)

Definition mph_resume (r : mph_resume_t) (arg : val) : prog :=
  MpResume false r (VResumeEnv arg false) Ret.

Definition mph_resume_tail (r : mph_resume_t) (arg : val) : prog :=
  MpResume true r (VResumeEnv arg false) Ret.

Definition mph_resume_unwind (r : mph_resume_t) : prog :=
  MpResume false r (VResumeEnv VNull true) (fun _ => Ret VNull).

Definition mph_resume_drop (r : mph_resume_t) : prog :=
  MpResumeShouldUnwind r (fun b =>
    if b then mph_resume_unwind r else MpResumeDrop r (Ret VNull)).

(** *** Under *)

Definition mph_under (under : mph_kind_t) (fn : val -> prog) (arg : val) : prog :=
  local_frame
    (fun _ => mkFrame (mkHandler None PromptUninit MPH_UNDER VNull) (TailUnder under))
    (fun h => mph_with_handler h (fn arg)).

(** *** Mask *)

Definition mph_mask (mask : mph_kind_t) (from : N) (fn : val -> prog) (arg : val)
  : prog :=
  local_frame
    (fun _ => mkFrame (mkHandler None PromptUninit MPH_UNDER VNull) (TailMask mask from))
    (fun h => mph_with_handler h (fn arg)).

End Code.

(** ** The machine *)

(** The C call stack between the running code and the bottom: return
    points, [try] blocks and prompts. *)
Inductive kframe : Type :=
| KRet (k : val -> prog)
| KCatch (catch : mph_unwind_exception -> prog)
| KPrompt (p : mp_prompt_t).

(** Modelled from the spec: the resume token of the prompt substrate
    ([struct mp_resume_s] of [mprompt.h], of which [mphnd.c] has the
    declaration only).  It holds the
    continuation captured from the yield site up to and including its
    prompt, whether it came from [mp_myield], and whether it is still
    owned. *)
Record mp_resume_s : Type := mkResume {
  r_kont : val -> prog;
  r_stack : list kframe;
  r_multi : bool;
  r_live : bool
}.

Record state : Type := mkState {
  st_mem : mem;
  st_resumes : list mp_resume_s;
  st_prompts : nat
}.

Definition config : Type := prog * list kframe * state.

Inductive status : Type :=
| Running (c : config)
| Finished (v : val) (s : state)
| Uncaught (e : mph_unwind_exception) (s : state)
| Stuck (s : state).

(** The part of the stack up to and including the prompt [p], and the rest. *)
Fixpoint split_at_prompt (p : mp_prompt_t) (K : list kframe)
  : option (list kframe * list kframe) :=
  match K with
  | [] => None
  | KPrompt q :: K' =>
    if decide (q = p) then Some ([KPrompt q], K')
    else match split_at_prompt p K' with
         | Some (K1, K2) => Some (KPrompt q :: K1, K2)
         | None => None
         end
  | fr :: K' =>
    match split_at_prompt p K' with
    | Some (K1, K2) => Some (fr :: K1, K2)
    | None => None
    end
  end.

Definition release (r : mph_resume_t) (s : state) : state :=
  match st_resumes s !! r with
  | Some tok =>
    mkState (st_mem s)
            (<[r := mkResume (r_kont tok) (r_stack tok) (r_multi tok) false]> (st_resumes s))
            (st_prompts s)
  | None => s
  end.

Definition live_token (r : mph_resume_t) (s : state) : option mp_resume_s :=
  match st_resumes s !! r with
  | Some tok => if r_live tok then Some tok else None
  | None => None
  end.

Section Machine.

(** The unwind functions of the user, by code pointer. *)
Variable user_unwind : nat -> val -> val -> prog.

(** Modelled from the spec: [mp_resume_should_unwind] of the prompt
    substrate, which [mphnd.c] only calls and which "advises whether drop must run
    unwinders"; the advice for each token is a parameter. *)
Variable mp_resume_should_unwind : mph_resume_t -> bool.

(** Modelled from the spec: the prompt substrate of section 6.2
    ([mp_prompt], [mp_yield], [mp_myield], [mp_resume], [mp_resume_tail],
    [mp_resume_drop]), which [mphnd.c] only calls.  [MpPrompt] installs a fresh
    prompt and runs the start function under it; [MpYield] captures the
    stack up to the prompt and runs the yield function outside of it, its
    value being the value of the prompt; [MpResume] reinstates a captured
    stack on top of the caller, which receives the value of the prompt;
    a token of [mp_yield] is consumed by its resume, a token of [mp_myield]
    stays owned until it is dropped. *)
Definition step (c : config) : status :=
  let '(t, K, s) := c in
  match t with
  | Ret v =>
    match K with
    | [] => Finished v s
    | KRet k :: K' => Running (k v, K', s)
    | KCatch _ :: K' => Running (Ret v, K', s)
    | KPrompt _ :: K' => Running (Ret v, K', s)
    end
  | Crash => Stuck s
  | Get k => Running (k (st_mem s), K, s)
  | Put m k => Running (k, K, mkState m (st_resumes s) (st_prompts s))
  | CallUser f hd arg k => Running (user_unwind f hd arg, KRet k :: K, s)
  | Throw e =>
    match K with
    | [] => Uncaught e s
    | KCatch catch :: K' => Running (catch e, K', s)
    | _ :: K' => Running (Throw e, K', s)
    end
  | TryCatch body catch k => Running (body, KCatch catch :: KRet k :: K, s)
  | MpPrompt start k =>
    Running (start (st_prompts s), KPrompt (st_prompts s) :: KRet k :: K,
             mkState (st_mem s) (st_resumes s) (S (st_prompts s)))
  | MpYield multi p f k =>
    match split_at_prompt p K with
    | Some (K1, K2) =>
      Running (f (length (st_resumes s)), K2,
               mkState (st_mem s) (st_resumes s ++ [mkResume k K1 multi true])
                       (st_prompts s))
    | None => Stuck s
    end
  | MpResume _ r arg k =>
    match live_token r s with
    | Some tok =>
      Running (r_kont tok arg, r_stack tok ++ KRet k :: K,
               if r_multi tok then s else release r s)
    | None => Stuck s
    end
  | MpResumeDrop r k =>
    match live_token r s with
    | Some _ => Running (k, K, release r s)
    | None => Stuck s
    end
  | MpResumeShouldUnwind r k =>
    match live_token r s with
    | Some _ => Running (k (mp_resume_should_unwind r), K, s)
    | None => Stuck s
    end
  end.

Fixpoint run (fuel : nat) (c : config) : status :=
  match fuel with
  | O => Running c
  | S n =>
    match step c with
    | Running c' => run n c'
    | st => st
    end
  end.

End Machine.

Definition init_state : state := mkState (mkMem [] None) [] 0.

(** ** Installing frames, seen from the store *)

(** The net effect on the store of declaring the local frame [fr] and
    entering [mph_with_handler] on it. *)
Definition install (fr : frame) (m : mem) : mem :=
  let h := length (heap m) in
  let m1 := snd (alloc fr m) in
  set_top (Some h) (store_parent h (_mph_top m1) m1).

(** Nested installations, outermost first. *)
Fixpoint installs (frs : list frame) (m : mem) : mem :=
  match frs with
  | [] => m
  | fr :: frs' => installs frs' (install fr m)
  end.

(** The frames the four installers declare. *)
Definition linear_frame (k : mph_kind_t) (hd : val) : frame :=
  mkFrame (mkHandler None PromptNull k hd) TailNone.
Definition prompt_frame (p : mp_prompt_t) (k : mph_kind_t) (h : addr) : frame :=
  mkFrame (mkHandler None (PromptSome p) k (VLocal h)) TailNone.
Definition under_frame (u : mph_kind_t) : frame :=
  mkFrame (mkHandler None PromptUninit MPH_UNDER VNull) (TailUnder u).
Definition mask_frame (mk : mph_kind_t) (from : N) : frame :=
  mkFrame (mkHandler None PromptUninit MPH_UNDER VNull) (TailMask mk from).

(** A frame the search for [k] walks past without any effect: its kind is
    neither [k] nor one of the two kinds [mph_find] interprets. *)
Definition plain (k : mph_kind_t) (fr : frame) : Prop :=
  kind (handler fr) <> k /\ kind (handler fr) <> MPH_UNDER /\
  kind (handler fr) <> MPH_MASK.

(** The state of the inner [do]/[while] of [mph_find] when [h] has just
    been advanced to [t]. *)
Definition skip_arrive (fuel : nat) (hp : list frame) (ukind : mph_kind_t)
    (t : option addr) : res (option addr) :=
  match t with
  | None => Ok None
  | Some p =>
    match hp !! p with
    | None => Undefined
    | Some fp =>
      if decide (kind (handler fp) = ukind) then Ok (Some p)
      else skip_to fuel hp ukind p
    end
  end.

(** ** Leaving installations, seen from the store *)

(** The effect of the exit of [mph_with_handler(h)] on the store. *)
Definition uninstall (h : addr) (m : mem) : mem :=
  match heap m !! h with
  | Some fr => set_top (parent (handler fr)) m
  | None => m
  end.

(** Leave the [n] innermost installations, innermost first. *)
Fixpoint leave (n : nat) (m : mem) : mem :=
  match n with
  | O => m
  | S n' =>
    match _mph_top m with
    | Some h => leave n' (uninstall h m)
    | None => m
    end
  end.

(** ** Entering an installation on the machine *)

Definition with_mem (m : mem) (s : state) : state :=
  mkState m (st_resumes s) (st_prompts s).

(** The stack entries of the C++ [mph_with_handler(h)] block. *)
Definition raii_frames (h : addr) : list kframe :=
  [KCatch (fun e => raii_destructor h ;;; Throw e);
   KRet (fun result => raii_destructor h ;;; Ret result)].

(** The stack entries of [mph_start] for the frame [h] in the C++ build. *)
Definition start_frames (h : addr) : list kframe :=
  raii_frames h ++ [KCatch (start_catch h (VLocal h)); KRet Ret].

(** The machine at the first instruction of [body] inside
    [mph_with_handler(h)], called with the stack [K]. *)
Definition enter (b : bool) (h : addr) (body : prog) (K : list kframe)
  : prog * list kframe :=
  if b then (body, raii_frames h ++ K)
  else ((let* result := body in pop_handler h ;;; Ret result), K).

(** User code that searches and returns the handler pointer. *)
Definition user_find (fuel : nat) (k : mph_kind_t) : prog :=
  Get (fun m =>
    match mph_find fuel m k with
    | Ok (Some h) => Ret (VHandler h)
    | Ok None => Ret VNull
    | _ => Crash
    end).

(** The machine at the first instruction of the body of [mph_start]. *)
Definition start_enter (b : bool) (h : addr) (body : prog) (K : list kframe)
  : prog * list kframe :=
  if b then (body, start_frames h ++ K) else enter false h body K.

Definition final_value (st : status) : option val :=
  match st with
  | Finished v _ => Some v
  | _ => None
  end.

Definition final_top (st : status) : option (option addr) :=
  match st with
  | Finished _ s => Some (_mph_top (st_mem s))
  | _ => None
  end.

(** Following the words of the specification ("the innermost K-kind handler
    strictly above A"): the first frame of kind [k] on the parent chain
    from [h], every frame being looked at for its kind only. *)
Fixpoint innermost_of_kind (fuel : nat) (hp : list frame) (k : mph_kind_t)
    (h : option addr) : option addr :=
  match fuel with
  | O => None
  | S n =>
    match h with
    | None => None
    | Some a =>
      match hp !! a with
      | None => None
      | Some f =>
        if decide (kind (handler f) = k) then Some a
        else innermost_of_kind n hp k (parent (handler f))
      end
    end
  end.


(** A handler of kind 0 around a handler of kind 1 around a mask of kind 0
    around a search for kind 1. *)
Definition mask_scenario (b : bool) (masked : bool) : prog :=
  mph_linear_handler b (UserKind 0) VNull (fun _ _ =>
    mph_linear_handler b (UserKind 1) VNull (fun _ _ =>
      if masked then mph_mask b (UserKind 0) 0 (fun _ => user_find 10 (UserKind 1)) VNull
      else user_find 10 (UserKind 1)) VNull) VNull.

(** User code on the handler side of a yield: resume at once with [q]. *)
Definition resume_with (tailcall : bool) (q : val) (post : val -> prog)
  : mph_yield_fun_t :=
  fun r _ _ =>
    let* v := (if tailcall then mph_resume_tail r q else mph_resume r q) in post v.

(** User code: read [mph_parent(h)] and return it. *)
Definition user_parent (h : addr) : prog :=
  Get (fun m =>
    match mph_parent m (Some h) with
    | Ok (Some p) => Ret (VHandler p)
    | Ok None => Ret VNull
    | _ => Crash
    end).

(** Scenario S2 of the specification: a prompt handler of kind 0 whose
    body yields to it, the handler side resuming with 7; [after h] is what
    the body does once the yield has returned. *)
Definition yield_scenario (b : bool) (after : addr -> val -> prog) : prog :=
  mph_prompt b (UserKind 0) 0 (fun _ _ =>
    Get (fun m =>
      match mph_find 10 m (UserKind 0) with
      | Ok (Some h) =>
        let* v := mph_yield_to b h (resume_with false (VWord 7) Ret) VNull in
        after h v
      | _ => Crash
      end)) VNull.

(** User code: read [mph_top()] and return it. *)
Definition user_top : prog :=
  Get (fun m =>
    match mph_top m with
    | Some h => Ret (VHandler h)
    | None => Ret VNull
    end).

(** The same inside a linear handler of kind 1, whose body goes on with
    [rest] on the value of the prompt handler. *)
Definition nested_yield_scenario (b : bool) (after : addr -> val -> prog)
    (rest : val -> prog) : prog :=
  mph_linear_handler b (UserKind 1) VNull
    (fun _ _ => let* v := yield_scenario b after in rest v) VNull.

Definition is_stuck (st : status) : bool :=
  match st with
  | Stuck _ => true
  | _ => false
  end.

(** Scenarios S3 and S4 of the specification. *)
Definition scenario_S3 (b : bool) : prog :=
  mph_prompt b (UserKind 0) 0
    (fun _ _ => mph_mask b (UserKind 0) 0 (fun _ => user_find 10 (UserKind 0)) VNull) VNull.

Definition scenario_S4 (b : bool) : prog :=
  mph_prompt b (UserKind 0) 0 (fun _ _ =>
    mph_prompt b (UserKind 0) 0 (fun _ _ =>
      mph_under b (UserKind 0) (fun _ => user_find 10 (UserKind 0)) VNull) VNull) VNull.

(** Inputs for the examples: no user unwind function is called, and the
    substrate never, or always, advises to unwind. *)
Definition no_user_unwind : nat -> val -> val -> prog := fun _ _ arg => Ret arg.
Definition never_unwind : mph_resume_t -> bool := fun _ => false.
Definition always_unwind : mph_resume_t -> bool := fun _ => true.

(** ** Code without substrate calls, in one step *)

(** How a piece of code ends: by returning a value or by an exception. *)
Inductive outcome : Type :=
| Normal (v : val) (s : state)
| Raised (e : mph_unwind_exception) (s : state).

Definition out_state (o : outcome) : state :=
  match o with
  | Normal _ s => s
  | Raised _ s => s
  end.

(** The outcome of code that neither yields nor resumes nor calls a user
    unwind function, read off the program tree; [eval_run] shows that the
    machine arrives at it. *)
Fixpoint eval (t : prog) (s : state) : option outcome :=
  match t with
  | Ret v => Some (Normal v s)
  | Get k => eval (k (st_mem s)) s
  | Put m k => eval k (with_mem m s)
  | Throw e => Some (Raised e s)
  | TryCatch body catch k =>
    match eval body s with
    | Some (Normal v s1) => eval (k v) s1
    | Some (Raised e s1) =>
      match eval (catch e) s1 with
      | Some (Normal v s2) => eval (k v) s2
      | o => o
      end
    | None => None
    end
  | MpPrompt start k =>
    match eval (start (st_prompts s))
               (mkState (st_mem s) (st_resumes s) (S (st_prompts s))) with
    | Some (Normal v s1) => eval (k v) s1
    | o => o
    end
  | _ => None
  end.

(** The machine configuration an outcome stands for. *)
Definition arrived (o : outcome) (K : list kframe) : status :=
  match o with
  | Normal v s => Running (Ret v, K, s)
  | Raised e s => Running (Throw e, K, s)
  end.

(** The outcome [o] with the state [s]. *)
Definition with_out_state (o : outcome) (s : state) : outcome :=
  match o with
  | Normal v _ => Normal v s
  | Raised e _ => Raised e s
  end.

(** What the exit of [mph_with_handler(h)] makes of the outcome of its
    body: the C [for] loop pops after a return only, the C++ destructor
    pops, after its assertion, on a return and on an exception. *)
Definition exit_handler (b : bool) (h : addr) (o : outcome) : option outcome :=
  let s2 := out_state o in
  let popped :=
    match heap (st_mem s2) !! h with
    | Some fr => Some (with_out_state o (with_mem (set_top (parent (handler fr)) (st_mem s2)) s2))
    | None => None
    end in
  match o with
  | Normal _ _ =>
    if b then (if decide (_mph_top (st_mem s2) = Some h) then popped else None)
    else popped
  | Raised _ _ =>
    if b then (if decide (_mph_top (st_mem s2) = Some h) then popped else None)
    else Some o
  end.

(** The state [s'] has the top of the shadow stack and all the frames of
    [s], untouched. *)
Definition kept (s s' : state) : Prop :=
  _mph_top (st_mem s') = _mph_top (st_mem s) /\
  exists ext, heap (st_mem s') = heap (st_mem s) ++ ext.

(** What [mph_start] for the frame [h] makes, in the C++ build, of the
    outcome of its scoped installation: it catches the token for [h]. *)
Definition start_outcome (h : addr) (o : outcome) : outcome :=
  match o with
  | Normal v s => Normal v s
  | Raised e s => if decide (target e = h) then Normal (uarg e) s else Raised e s
  end.

(** User code, scenario S1 of the specification: return
    [mph_data(mph_find(k))]. *)
Definition user_ask (fuel : nat) (k : mph_kind_t) : prog :=
  Get (fun m =>
    match mph_find fuel m k with
    | Ok (Some h) =>
      match mph_data m h with
      | Ok v => Ret v
      | _ => Crash
      end
    | _ => Crash
    end).

(** Two frames [mph_find] cannot tell apart: the same header, the same
    word after it, and the same mask words where the header kind is
    [MPH_MASK], the only place where [mph_find] reads them. *)
Definition same_for_find (f g : frame) : Prop :=
  handler f = handler g /\ read_under f = read_under g /\
  (kind (handler f) = MPH_MASK -> read_mask f = read_mask g).

(** A frame of a user kind: neither an under frame nor a mask frame. *)
Definition user_frame (f : frame) : Prop :=
  kind (handler f) <> MPH_UNDER /\ kind (handler f) <> MPH_MASK.

(** User code: the frames met by walking [mph_parent] from [h] to the
    root, innermost first. *)
Fixpoint walk_parents (fuel : nat) (m : mem) (h : option addr) : res (list addr) :=
  match fuel with
  | O => OutOfFuel
  | S n =>
    match h with
    | None => Ok []
    | Some a =>
      match mph_parent m (Some a) with
      | Ok p =>
        match walk_parents n m p with
        | Ok l => Ok (a :: l)
        | Undefined => Undefined
        | OutOfFuel => OutOfFuel
        end
      | Undefined => Undefined
      | OutOfFuel => OutOfFuel
      end
    end
  end.

(** User code made of calls of the four installers only, nested and in
    sequence, around returns of values. *)
Inductive nest : Type :=
| NRet (v : val)
| NSeq (t1 t2 : nest)
| NLinear (k : mph_kind_t) (hd : val) (body : nest)
| NPrompt (k : mph_kind_t) (size : N) (body : nest)
| NUnder (u : mph_kind_t) (body : nest)
| NMask (mk : mph_kind_t) (from : N) (body : nest).

Fixpoint nest_prog (b : bool) (t : nest) : prog :=
  match t with
  | NRet v => Ret v
  | NSeq t1 t2 => nest_prog b t1 ;;; nest_prog b t2
  | NLinear k hd body => mph_linear_handler b k hd (fun _ _ => nest_prog b body) VNull
  | NPrompt k size body => mph_prompt b k size (fun _ _ => nest_prog b body) VNull
  | NUnder u body => mph_under b u (fun _ => nest_prog b body) VNull
  | NMask mk from body => mph_mask b mk from (fun _ => nest_prog b body) VNull
  end.

(** States for the examples: a linear handler, and a prompt handler for
    the prompt 0, installed at frame 0 on the empty stack. *)
Definition linear_state : state :=
  with_mem (install (linear_frame (UserKind 0) VNull) (mkMem [] None)) init_state.

Definition prompt_state : state :=
  mkState (install (prompt_frame 0 (UserKind 0) 0) (mkMem [] None)) [] 1.

(** The value the machine is returning, if it is at a return. *)
Definition returned (st : status) : option val :=
  match st with
  | Running (Ret v, _, _) => Some v
  | Finished v _ => Some v
  | _ => None
  end.

Definition stuck_top (st : status) : option (option addr) :=
  match st with
  | Stuck s => Some (_mph_top (st_mem s))
  | _ => None
  end.

(** A prompt handler [T] of kind 0 (frame 0) around a prompt handler [I]
    of kind 1 (frame 1).  The body of [I] first, if [first_yield], yields
    to [I] and is resumed with 7; then it yields to [T], and the handler
    side of that yield forces the unwind and returns 5. *)
Definition unwind_after_resume_scenario (b : bool) (first_yield : bool) : prog :=
  mph_prompt b (UserKind 0) 0 (fun _ _ =>
    Get (fun m =>
      match mph_find 10 m (UserKind 0) with
      | Ok (Some hT) =>
        mph_prompt b (UserKind 1) 0 (fun _ _ =>
          Get (fun m1 =>
            match mph_find 10 m1 (UserKind 1) with
            | Ok (Some hI) =>
              (if first_yield
               then mph_yield_to b hI (resume_with false (VWord 7) Ret) VNull
               else Ret VNull) ;;;
              mph_yield_to b hT (fun r _ _ => mph_resume_unwind r ;;; Ret (VWord 5)) VNull
            | _ => Crash
            end)) VNull
      | _ => Crash
      end)) VNull.

(** A linear handler [A] of kind 0 (frame 0) around a prompt handler [B] of
    kind 0 (frame 1) whose body, if [yields], yields to [B] and is resumed
    with 7; once [B] has returned, still inside [A], the search for kind
    0. *)
Definition innermost_after_resume_scenario (b : bool) (yields : bool) : prog :=
  mph_linear_handler b (UserKind 0) VNull (fun _ _ =>
    mph_prompt b (UserKind 0) 0 (fun _ _ =>
      if yields then
        Get (fun m =>
          match mph_find 10 m (UserKind 0) with
          | Ok (Some h) => mph_yield_to b h (resume_with false (VWord 7) Ret) VNull
          | _ => Crash
          end)
      else Ret VNull) VNull ;;;
    user_find 10 (UserKind 0)) VNull.

(** A prompt handler [A] of kind 0 (frame 0) whose body, if [yields],
    yields to [A] and is resumed with 7, and then searches for kind 0
    inside [mph_under] of kind 0. *)
Definition under_after_resume_scenario (b : bool) (yields : bool) : prog :=
  mph_prompt b (UserKind 0) 0 (fun _ _ =>
    (if yields then
       Get (fun m =>
         match mph_find 10 m (UserKind 0) with
         | Ok (Some h) => mph_yield_to b h (resume_with false (VWord 7) Ret) VNull
         | _ => Crash
         end)
     else Ret VNull) ;;;
    mph_under b (UserKind 0) (fun _ => user_find 10 (UserKind 0)) VNull) VNull.

(** * Properties *)

(** ** Running the machine *)

Lemma run_add uu su (n m : nat) (c : config) :
  run uu su (n + m) c =
  match run uu su n c with
  | Running c' => run uu su m c'
  | st => st
  end.
Proof.
  revert c. induction n as [|n IH]; intros c; simpl.
  - reflexivity.
  - destruct (step uu su c); auto.
Qed.

(** ** Properties of the store operations *)

Lemma install_heap fr m :
  heap (install fr m) = heap m ++ [set_parent (_mph_top m) fr].
Proof.
  unfold install, store_parent, alloc; simpl.
  rewrite list_lookup_middle by reflexivity. simpl.
  rewrite insert_app_r_alt by lia.
  rewrite Nat.sub_diag. reflexivity.
Qed.

Lemma install_top fr m : _mph_top (install fr m) = Some (length (heap m)).
Proof. reflexivity. Qed.

Lemma install_lookup_new fr m :
  heap (install fr m) !! length (heap m) = Some (set_parent (_mph_top m) fr).
Proof. rewrite install_heap. apply list_lookup_middle. reflexivity. Qed.

Lemma installs_snoc frs fr m :
  installs (frs ++ [fr]) m = install fr (installs frs m).
Proof. revert m. induction frs as [|g frs IH]; intros m; simpl; auto. Qed.

Lemma installs_heap_prefix frs m :
  exists ext, heap (installs frs m) = heap m ++ ext.
Proof.
  revert m. induction frs as [|g frs IH]; intros m; simpl.
  - exists []. symmetry. apply app_nil_r.
  - destruct (IH (install g m)) as [ext Hext].
    rewrite Hext, install_heap, <- app_assoc. eauto.
Qed.

Opaque install.

(** ** Properties of the search *)

Lemma skip_to_unfold n hp uk h :
  skip_to (S n) hp uk h =
  match hp !! h with
  | None => Undefined
  | Some f => skip_arrive n hp uk (parent (handler f))
  end.
Proof. reflexivity. Qed.

(** A search that succeeds reads only allocated frames, so it is not
    disturbed by later allocations. *)
Lemma skip_to_ext n hp ext uk h r :
  skip_to n hp uk h = Ok r -> skip_to n (hp ++ ext) uk h = Ok r.
Proof.
  revert h. induction n as [|n IH]; intros h; simpl; [discriminate|].
  destruct (hp !! h) as [f|] eqn:Hh; [|discriminate].
  rewrite (lookup_app_l_Some _ _ _ _ Hh).
  destruct (parent (handler f)) as [p|]; [|auto].
  destruct (hp !! p) as [fp|] eqn:Hp; [|discriminate].
  rewrite (lookup_app_l_Some _ _ _ _ Hp).
  destruct (decide _); auto.
Qed.

Lemma skip_arrive_ext n hp ext uk t r :
  skip_arrive n hp uk t = Ok r -> skip_arrive n (hp ++ ext) uk t = Ok r.
Proof.
  unfold skip_arrive. destruct t as [p|]; [|auto].
  destruct (hp !! p) as [fp|] eqn:Hp; [|discriminate].
  rewrite (lookup_app_l_Some _ _ _ _ Hp).
  destruct (decide _); auto using skip_to_ext.
Qed.

Lemma find_loop_ext n hp ext k h lvl r :
  find_loop n hp k h lvl = Ok r -> find_loop n (hp ++ ext) k h lvl = Ok r.
Proof.
  revert h lvl. induction n as [|n IH]; intros h lvl; simpl; [discriminate|].
  destruct h as [a|]; [|auto].
  destruct (hp !! a) as [f|] eqn:Ha; [|discriminate].
  rewrite (lookup_app_l_Some _ _ _ _ Ha).
  destruct (decide (k = kind (handler f))).
  { destruct (lvl <=? 0)%N; auto. }
  destruct (decide (kind (handler f) = MPH_UNDER)).
  { destruct (read_under f) as [uk|]; [|discriminate].
    destruct (skip_to n hp uk a) as [[a'|]| |] eqn:Hs; try discriminate.
    - rewrite (skip_to_ext _ _ _ _ _ _ Hs).
      destruct (hp !! a') as [f'|] eqn:Ha'; [|discriminate].
      rewrite (lookup_app_l_Some _ _ _ _ Ha'). auto.
    - rewrite (skip_to_ext _ _ _ _ _ _ Hs). auto. }
  destruct (decide (kind (handler f) = MPH_MASK)); [|auto].
  destruct (read_mask f) as [[mk fr]|]; [|discriminate]. auto.
Qed.

(** More fuel does not change a result. *)
Lemma skip_to_mono n n' hp uk h r :
  skip_to n hp uk h = Ok r -> n <= n' -> skip_to n' hp uk h = Ok r.
Proof.
  revert n' h. induction n as [|n IH]; intros n' h; simpl; [discriminate|].
  intros H Hle. destruct n' as [|n']; [lia|]. simpl.
  destruct (hp !! h) as [f|]; [|discriminate].
  destruct (parent (handler f)) as [p|]; [|auto].
  destruct (hp !! p) as [fp|]; [|discriminate].
  destruct (decide _); auto. apply IH; auto. lia.
Qed.

Lemma find_loop_mono n n' hp k h lvl r :
  find_loop n hp k h lvl = Ok r -> n <= n' -> find_loop n' hp k h lvl = Ok r.
Proof.
  revert n' h lvl. induction n as [|n IH]; intros n' h lvl; simpl; [discriminate|].
  intros H Hle. destruct n' as [|n']; [lia|]. simpl.
  assert (Hn : n <= n') by lia.
  destruct h as [a|]; [|auto].
  destruct (hp !! a) as [f|]; [|discriminate].
  destruct (decide (k = kind (handler f))).
  { destruct (lvl <=? 0)%N; auto. }
  destruct (decide (kind (handler f) = MPH_UNDER)).
  { destruct (read_under f) as [uk|]; [|discriminate].
    destruct (skip_to n hp uk a) as [[a'|]| |] eqn:Hs; try discriminate.
    - rewrite (skip_to_mono _ _ _ _ _ _ Hs Hn).
      destruct (hp !! a') as [f'|]; [|discriminate]. auto.
    - rewrite (skip_to_mono _ _ _ _ _ _ Hs Hn). auto. }
  destruct (decide (kind (handler f) = MPH_MASK)); [|auto].
  destruct (read_mask f) as [[mk fr]|]; [|discriminate]. auto.
Qed.


Lemma skip_arrive_mono n n' hp uk t r :
  skip_arrive n hp uk t = Ok r -> n <= n' -> skip_arrive n' hp uk t = Ok r.
Proof.
  unfold skip_arrive. destruct t as [p|]; [|auto].
  destruct (hp !! p) as [fp|]; [|discriminate].
  destruct (decide _); eauto using skip_to_mono.
Qed.

(** Searching from a frame that has just been installed. *)
Lemma find_install_match n fr m k :
  kind (handler fr) = k ->
  mph_find (S n) (install fr m) k = Ok (Some (length (heap m))).
Proof.
  intros Hk. unfold mph_find. rewrite install_top. simpl.
  rewrite install_lookup_new. simpl.
  destruct (decide (k = kind (handler fr))); [reflexivity | congruence].
Qed.

Lemma find_install_plain n fr m k r :
  plain k fr ->
  mph_find n m k = Ok r ->
  mph_find (S n) (install fr m) k = Ok r.
Proof.
  intros (Hk & Hu & Hm) Hfind. unfold mph_find. rewrite install_top. simpl.
  rewrite install_lookup_new. simpl.
  destruct (decide (k = kind (handler fr))); [congruence|].
  destruct (decide (kind (handler fr) = MPH_UNDER)); [congruence|].
  destruct (decide (kind (handler fr) = MPH_MASK)); [congruence|].
  rewrite install_heap. apply find_loop_ext. exact Hfind.
Qed.

Lemma find_installs_plain n frs m k r :
  Forall (plain k) frs ->
  mph_find n m k = Ok r ->
  mph_find (length frs + n) (installs frs m) k = Ok r.
Proof.
  revert n m. induction frs as [|fr frs IH]; intros n m Hall Hfind; simpl.
  - exact Hfind.
  - inversion Hall as [|? ? Hfr Hrest]; subst.
    replace (S (length frs + n)) with (length frs + S n) by lia.
    apply IH; [assumption|]. apply find_install_plain; assumption.
Qed.

(** The inner loop of an under frame stops at the innermost frame of the
    kind it looks for. *)
Lemma skip_arrive_installs pre fr m uk :
  kind (handler fr) = uk ->
  Forall (fun g => kind (handler g) <> uk) pre ->
  skip_arrive (length pre) (heap (installs pre (install fr m))) uk
              (_mph_top (installs pre (install fr m)))
  = Ok (Some (length (heap m))).
Proof.
  intros Hk. induction pre as [|g pre IH] using rev_ind; intros Hall.
  - simpl. rewrite install_top. unfold skip_arrive.
    rewrite install_lookup_new. simpl.
    destruct (decide (kind (handler fr) = uk)); [reflexivity | congruence].
  - apply Forall_app in Hall as [Hpre Hg].
    inversion Hg as [|? ? Hgk _]; subst.
    rewrite installs_snoc, install_top, length_app. cbn [length].
    rewrite Nat.add_1_r. unfold skip_arrive at 1.
    rewrite install_lookup_new. cbn [handler kind set_parent].
    destruct (decide (kind (handler g) = kind (handler fr))); [congruence|].
    rewrite skip_to_unfold, install_lookup_new. cbn [handler parent set_parent].
    rewrite install_heap. apply skip_arrive_ext. auto.
Qed.

(** Directly inside a frame [u] that [mph_find] takes for an under frame
    of kind [uk], installed inside [pre] inside a frame of kind [uk], the
    search for [k] gives what it gave before that frame of kind [uk] was
    installed: the search resumes at its parent. *)
Lemma find_install_under n pre fr u m k uk r :
  kind (handler fr) = uk ->
  k <> MPH_UNDER ->
  Forall (fun g => kind (handler g) <> uk) pre ->
  kind (handler u) = MPH_UNDER ->
  read_under u = Some uk ->
  mph_find n m k = Ok r ->
  mph_find (S (n + S (length pre))) (install u (installs pre (install fr m))) k = Ok r.
Proof.
  intros Hk Hnu Hpre Hu Hru Hfind.
  pose proof (skip_arrive_installs pre fr m uk Hk Hpre) as Hskip.
  destruct (installs_heap_prefix pre (install fr m)) as [ext Hext].
  set (M := installs pre (install fr m)) in *.
  unfold mph_find. rewrite install_top.
  cbn [find_loop]. rewrite install_lookup_new. simpl handler. simpl kind.
  destruct (decide (k = kind (handler u))); [congruence|].
  destruct (decide (kind (handler u) = MPH_UNDER)); [|congruence].
  change (read_under (set_parent (_mph_top M) u)) with (read_under u).
  rewrite Hru.
  replace (n + S (length pre)) with (S (n + length pre)) by lia.
  rewrite skip_to_unfold, install_lookup_new. simpl parent.
  rewrite install_heap.
  rewrite (skip_arrive_ext (n + length pre) (heap M) _ uk (_mph_top M)
             (Some (length (heap m)))); cycle 1.
  { eapply skip_arrive_mono; [exact Hskip | lia]. }
  rewrite Hext. rewrite install_heap. rewrite <- !app_assoc.
  change ([set_parent (_mph_top m) fr] ++ ext ++ [set_parent (_mph_top M) u])
    with (set_parent (_mph_top m) fr :: ext ++ [set_parent (_mph_top M) u]).
  rewrite list_lookup_middle by reflexivity. cbn [handler parent set_parent].
  eapply find_loop_mono; [|apply Nat.le_succ_diag_r].
  eapply find_loop_mono; [|apply Nat.le_add_r].
  apply find_loop_ext. exact Hfind.
Qed.


Lemma find_mono n n' m k r :
  mph_find n m k = Ok r -> n <= n' -> mph_find n' m k = Ok r.
Proof. apply find_loop_mono. Qed.

(** *** Leaving installations *)

Lemma uninstall_install fr m ext :
  uninstall (length (heap m)) (mkMem (heap (install fr m) ++ ext) (Some (length (heap m))))
  = mkMem (heap (install fr m) ++ ext) (_mph_top m).
Proof.
  unfold uninstall. cbn [heap].
  rewrite install_heap, <- app_assoc.
  change ([set_parent (_mph_top m) fr] ++ ext) with (set_parent (_mph_top m) fr :: ext).
  rewrite list_lookup_middle by reflexivity. reflexivity.
Qed.

Lemma leave_installs_ext frs m ext :
  leave (length frs) (mkMem (heap (installs frs m) ++ ext) (_mph_top (installs frs m)))
  = mkMem (heap (installs frs m) ++ ext) (_mph_top m).
Proof.
  revert ext. induction frs as [|g frs IH] using rev_ind; intros ext.
  - reflexivity.
  - rewrite installs_snoc, length_app, Nat.add_1_r. cbn [length leave _mph_top].
    rewrite install_top, uninstall_install.
    rewrite install_heap, <- app_assoc. apply IH.
Qed.

Lemma leave_installs frs m :
  leave (length frs) (installs frs m) = mkMem (heap (installs frs m)) (_mph_top m).
Proof.
  pose proof (leave_installs_ext frs m []) as H.
  rewrite app_nil_r in H. destruct (installs frs m); exact H.
Qed.

Transparent install.

Section Runs.

Variable user_unwind : nat -> val -> val -> prog.
Variable should_unwind : mph_resume_t -> bool.

#[local] Abbreviation exec := (run user_unwind should_unwind).

Lemma run_with_handler (b : bool) (fr : frame) (body : addr -> prog) K s :
  exec (if b then 5 else 4)
      (local_frame (fun _ => fr) (fun h => mph_with_handler b h (body h)), K, s)
  = Running (enter b (length (heap (st_mem s))) (body (length (heap (st_mem s)))) K,
             with_mem (install fr (st_mem s)) s).
Proof. destruct b; reflexivity. Qed.

Lemma run_under (b : bool) u fn arg K s :
  exec (if b then 5 else 4) (mph_under b u fn arg, K, s)
  = Running (enter b (length (heap (st_mem s))) (fn arg) K,
             with_mem (install (under_frame u) (st_mem s)) s).
Proof. destruct b; reflexivity. Qed.

Lemma run_mask (b : bool) k from fn arg K s :
  exec (if b then 5 else 4) (mph_mask b k from fn arg, K, s)
  = Running (enter b (length (heap (st_mem s))) (fn arg) K,
             with_mem (install (mask_frame k from) (st_mem s)) s).
Proof. destruct b; reflexivity. Qed.

Lemma run_linear_handler (b : bool) k hd fn arg K s :
  exec (if b then 6 else 5) (mph_linear_handler b k hd fn arg, K, s)
  = Running (enter b (length (heap (st_mem s))) (fn hd arg) K,
             with_mem (install (linear_frame k hd) (st_mem s)) s).
Proof.
  destruct b.
  - change 6 with (5 + 1). rewrite run_add.
    unfold mph_linear_handler.
    rewrite (run_with_handler true (linear_frame k hd)
               (fun h => load h (fun fr => fn (hdata (handler fr)) arg))).
    cbn [enter run step load st_mem with_mem].
    rewrite install_lookup_new. reflexivity.
  - change 5 with (4 + 1). rewrite run_add.
    unfold mph_linear_handler.
    rewrite (run_with_handler false (linear_frame k hd)
               (fun h => load h (fun fr => fn (hdata (handler fr)) arg))).
    cbn [enter run step load st_mem with_mem bind].
    rewrite install_lookup_new. reflexivity.
Qed.

Lemma run_start p env K s :
  exec 6 (mph_start true p env, K, s)
  = Running (env_body env (VLocal (length (heap (st_mem s)))) (env_arg env),
             start_frames (length (heap (st_mem s))) ++ K,
             with_mem (install (prompt_frame p (env_kind env) (length (heap (st_mem s))))
                               (st_mem s)) s).
Proof. reflexivity. Qed.

Lemma run_start_c p env K s :
  exec 4 (mph_start false p env, K, s)
  = Running (enter false (length (heap (st_mem s)))
               (env_body env (VLocal (length (heap (st_mem s)))) (env_arg env)) K,
             with_mem (install (prompt_frame p (env_kind env) (length (heap (st_mem s))))
                               (st_mem s)) s).
Proof. reflexivity. Qed.

End Runs.

(** ** The search: innermost wins, under, the reserved kinds *)

Lemma mph_data_install fr m :
  mph_data (install fr m) (length (heap m)) = Ok (hdata (handler fr)).
Proof. unfold mph_data. rewrite install_lookup_new. reflexivity. Qed.

Lemma mph_kind_install fr m :
  mph_kind (install fr m) (length (heap m)) = Ok (kind (handler fr)).
Proof. unfold mph_kind. rewrite install_lookup_new. reflexivity. Qed.

(** Innermost wins on a stack linked as the installers leave it: with
    frames [A] (outer) and [B] (inner) of the same kind [k], and only
    frames that are neither of kind [k] nor under or mask frames between
    them and the search point, [mph_find k] inside [B] returns [B]; once
    [B] and what was installed inside it have been left, with no yield
    resumed in between, it returns [A]. *)
Theorem innermost_wins fuel k (A B : frame) (mid pre : list frame) (m : mem) :
  kind (handler A) = k ->
  kind (handler B) = k ->
  Forall (plain k) mid ->
  Forall (plain k) pre ->
  length mid < fuel ->
  length pre < fuel ->
  let atB := installs mid (install A m) in
  let inB := installs pre (install B atB) in
  mph_find fuel inB k = Ok (Some (length (heap atB))) /\
  mph_find fuel (leave (S (length pre)) inB) k = Ok (Some (length (heap m))).
Proof.
  intros HA HB Hmid Hpre Hfm Hfp atB inB.
  assert (HfA : mph_find fuel atB k = Ok (Some (length (heap m)))).
  { eapply find_mono with (n := length mid + 1); [|lia].
    apply find_installs_plain; [assumption|].
    apply find_install_match; assumption. }
  split.
  - eapply find_mono with (n := length pre + 1); [|lia].
    apply find_installs_plain; [assumption|].
    apply find_install_match; assumption.
  - change (S (length pre)) with (length (B :: pre)).
    change inB with (installs (B :: pre) atB).
    rewrite leave_installs.
    destruct (installs_heap_prefix (B :: pre) atB) as [ext Hext].
    unfold mph_find; cbn [heap _mph_top]. rewrite Hext.
    apply find_loop_ext. exact HfA.
Qed.

Lemma innermost_wins_witness :
  let A := linear_frame (UserKind 0) (VWord 1) in
  let B := prompt_frame 0 (UserKind 0) 2 in
  let other := linear_frame (UserKind 1) VNull in
  let m := mkMem [] None in
  mph_find 3 (installs [other] (install B (installs [other] (install A m)))) (UserKind 0)
    = Ok (Some 2) /\
  mph_find 3 (leave 2 (installs [other] (install B (installs [other] (install A m)))))
    (UserKind 0) = Ok (Some 0).
Proof.
  intros A B other m.
  apply (innermost_wins 3 (UserKind 0) A B [other] [other] m); try reflexivity.
  - repeat constructor; discriminate.
  - repeat constructor; discriminate.
  - simpl; lia.
  - simpl; lia.
Defined.




(** What [mph_find] does at a frame whose header kind is [MPH_MASK]: the
    mask level goes up by one exactly when the mask is for the kind
    searched and [from] is at most the level.  No installer of this file
    writes that header kind. *)
Lemma find_loop_mask_header n hp k a f mk from lvl :
  hp !! a = Some f ->
  kind (handler f) = MPH_MASK ->
  tail f = TailMask mk from ->
  k <> MPH_MASK ->
  find_loop (S n) hp k (Some a) lvl
  = find_loop n hp k (parent (handler f))
      (if bool_decide (mk = k) && (from <=? lvl)%N
       then ((lvl + 1) mod SIZE_MODULUS)%N else lvl).
Proof.
  intros Ha Hk Ht Hne. cbn [find_loop]. rewrite Ha. cbv zeta.
  destruct (decide (k = kind (handler f))); [congruence|].
  destruct (decide (kind (handler f) = MPH_UNDER)); [congruence|].
  destruct (decide (kind (handler f) = MPH_MASK)); [|congruence].
  unfold read_mask. rewrite Ht. reflexivity.
Qed.

(** What [mph_find] does at the frame [mph_mask] installs, whose header
    kind is [MPH_UNDER]: for every kind [k] searched, the kind of the mask
    or another, the search resumes at the parent of the innermost frame of
    the kind of the mask, so that the frames [pre] in between are hidden. *)
Lemma find_inside_mask n k mk from (A : frame) (pre : list frame) (m : mem) r :
  kind (handler A) = mk ->
  k <> MPH_UNDER ->
  Forall (fun g => kind (handler g) <> mk) pre ->
  mph_find n m k = Ok r ->
  mph_find (S (n + S (length pre)))
           (install (mask_frame mk from) (installs pre (install A m))) k = Ok r.
Proof.
  intros HA Hk Hpre Hfind.
  apply find_install_under with (uk := mk); auto.
Qed.

(** C10. The search for the reserved kind [MPH_UNDER] returns the innermost
    frame whose header kind is [MPH_UNDER], a frame installed by
    [mph_under] or by [mph_mask]: the test [kind == hkind] comes first. *)
Theorem find_under_sentinel n (post : list frame) u k from (m : mem) :
  Forall (plain MPH_UNDER) post ->
  (mph_find (length post + S n) (installs post (install (under_frame u) m)) MPH_UNDER
     = Ok (Some (length (heap m))) /\
   mph_kind (install (under_frame u) m) (length (heap m)) = Ok MPH_UNDER) /\
  (mph_find (length post + S n) (installs post (install (mask_frame k from) m)) MPH_UNDER
     = Ok (Some (length (heap m))) /\
   mph_kind (install (mask_frame k from) m) (length (heap m)) = Ok MPH_UNDER).
Proof.
  intros Hpost. split; split.
  - apply find_installs_plain; [assumption|]. apply find_install_match. reflexivity.
  - apply mph_kind_install.
  - apply find_installs_plain; [assumption|]. apply find_install_match. reflexivity.
  - apply mph_kind_install.
Qed.

Lemma find_under_sentinel_witness :
  let m := install (linear_frame (UserKind 0) VNull) (mkMem [] None) in
  let post := [linear_frame (UserKind 1) VNull] in
  mph_find 2 (installs post (install (under_frame (UserKind 0)) m)) MPH_UNDER = Ok (Some 1) /\
  mph_find 2 (installs post (install (mask_frame (UserKind 0) 0) m)) MPH_UNDER = Ok (Some 1).
Proof.
  intros m post.
  assert (Hpost : Forall (plain MPH_UNDER) post).
  { repeat constructor; discriminate. }
  destruct (find_under_sentinel 0 post (UserKind 0) (UserKind 0) 0%N m Hpost)
    as [[H1 _] [H2 _]].
  split; [exact H1 | exact H2].
Defined.

(** ** The installers and the yield path on the machine *)

(** A frame that is its own parent makes the search for any kind it does
    not stop at run forever. *)
Lemma find_loop_self_parent fuel hp k a f lvl :
  hp !! a = Some f ->
  parent (handler f) = Some a ->
  plain k f ->
  find_loop fuel hp k (Some a) lvl = OutOfFuel.
Proof.
  intros Ha Hp (Hk & Hu & Hm). revert lvl.
  induction fuel as [|n IH]; intros lvl; simpl; [reflexivity|].
  rewrite Ha.
  destruct (decide (k = kind (handler f))); [congruence|].
  destruct (decide (kind (handler f) = MPH_UNDER)); [congruence|].
  destruct (decide (kind (handler f) = MPH_MASK)); [congruence|].
  rewrite Hp. apply IH.
Qed.

Section OnMachine.

Variable user_unwind : nat -> val -> val -> prog.
Variable should_unwind : mph_resume_t -> bool.

#[local] Abbreviation exec := (run user_unwind should_unwind).

(** C9. The frames of [mph_under] and [mph_mask] carry a null [hdata], so
    [mph_data] on them returns null; the frame of [mph_linear_handler]
    carries the caller's [hdata] and the frame of a prompt handler the
    handler-local region reserved by [mph_start]. *)
Theorem installer_hdata (b : bool) u mk from k hd p env fn fnl arg K s :
  let m := st_mem s in
  let h := length (heap m) in
  (exec (if b then 5 else 4) (mph_under b u fn arg, K, s)
     = Running (enter b h (fn arg) K, with_mem (install (under_frame u) m) s) /\
   mph_top (install (under_frame u) m) = Some h /\
   mph_data (install (under_frame u) m) h = Ok VNull) /\
  (exec (if b then 5 else 4) (mph_mask b mk from fn arg, K, s)
     = Running (enter b h (fn arg) K, with_mem (install (mask_frame mk from) m) s) /\
   mph_top (install (mask_frame mk from) m) = Some h /\
   mph_data (install (mask_frame mk from) m) h = Ok VNull) /\
  (exec (if b then 6 else 5) (mph_linear_handler b k hd fnl arg, K, s)
     = Running (enter b h (fnl hd arg) K, with_mem (install (linear_frame k hd) m) s) /\
   mph_top (install (linear_frame k hd) m) = Some h /\
   mph_data (install (linear_frame k hd) m) h = Ok hd) /\
  (exec (if b then 6 else 4) (mph_start b p env, K, s)
     = Running (start_enter b h (env_body env (VLocal h) (env_arg env)) K,
                with_mem (install (prompt_frame p (env_kind env) h) m) s) /\
   mph_top (install (prompt_frame p (env_kind env) h) m) = Some h /\
   mph_data (install (prompt_frame p (env_kind env) h) m) h = Ok (VLocal h)).
Proof.
  intros m h. repeat split.
  - apply run_under.
  - apply mph_data_install.
  - apply run_mask.
  - apply mph_data_install.
  - apply run_linear_handler.
  - apply mph_data_install.
  - destruct b; [apply run_start | apply run_start_c].
  - apply mph_data_install.
Qed.

(** C1, the code at the failing input: the handler of kind 1 installed
    between a handler of kind 0 and [mph_mask] of kind 0 is not found by the
    search for kind 1 inside the mask, and is found without the mask. *)
Theorem mask_hides_other_kind (b : bool) :
  final_value (exec 40 (mask_scenario b true, [], init_state)) = Some VNull /\
  final_value (exec 40 (mask_scenario b false, [], init_state)) = Some (VHandler 1).
Proof. destruct b; split; vm_compute; reflexivity. Qed.

(** C2, the code at the failing input: after a prompt handler whose body
    yielded and was resumed has returned, [_mph_top] is the frame of the
    prompt handler and not what it was before the call: none at the bottom
    of the stack, frame 0 inside a linear handler.  In the C++ build the
    assertion [_mph_top == f] in the destructor of that linear handler then
    fails. *)
Theorem top_not_restored_after_resume (b : bool) :
  _mph_top (st_mem init_state) = None /\
  final_value (exec 100 (yield_scenario b (fun _ v => Ret v), [], init_state))
    = Some (VWord 7) /\
  final_top (exec 100 (yield_scenario b (fun _ v => Ret v), [], init_state))
    = Some (Some 0) /\
  final_value (exec 100 (nested_yield_scenario false (fun _ v => Ret v) (fun _ => user_top),
                         [], init_state))
    = Some (VHandler 1) /\
  is_stuck (exec 100 (nested_yield_scenario true (fun _ v => Ret v) Ret, [], init_state))
    = true.
Proof. destruct b; repeat split; vm_compute; reflexivity. Qed.

(** C7, the code at the failing input: the body of a prompt handler [h]
    yields to [h] and is resumed at once, under the stack the handler was
    installed on.  Once the yield has returned, [mph_parent(h)] is [h]
    itself: frame 0 where the stack below [h] is empty, frame 1 where [h]
    was installed, and is resumed, inside the linear handler at frame 0. *)
Theorem relink_parent_is_yield_top (b : bool) :
  final_value (exec 100 (yield_scenario b (fun h _ => user_parent h), [], init_state))
    = Some (VHandler 0) /\
  final_value (exec 100 (nested_yield_scenario false (fun h _ => user_parent h) Ret, [],
                         init_state))
    = Some (VHandler 1).
Proof. destruct b; split; vm_compute; reflexivity. Qed.

(** *** Steps of the yield path *)

Lemma run_S n c :
  exec (S n) c = match step user_unwind should_unwind c with
                 | Running c' => exec n c'
                 | st => st
                 end.
Proof. reflexivity. Qed.

Lemma live_token_new (s : state) m tok :
  live_token (length (st_resumes s))
    (mkState m (st_resumes s ++ [tok]) (st_prompts s))
  = if r_live tok then Some tok else None.
Proof.
  unfold live_token. cbn [st_resumes].
  rewrite list_lookup_middle by reflexivity. reflexivity.
Qed.

Lemma st_mem_release r s : st_mem (release r s) = st_mem s.
Proof. unfold release. destruct (st_resumes s !! r); reflexivity. Qed.

(** [mph_yield_to_internal] up to the substrate yield: [_mph_top] is set to
    the parent of [h], the continuation is captured up to the prompt of
    [h], and the handler-side function runs outside of it. *)
Lemma run_yield (b once : bool) h fr p fn arg k K K1 K2 s :
  heap (st_mem s) !! h = Some fr ->
  prompt (handler fr) = PromptSome p ->
  split_at_prompt p K = Some (K1, K2) ->
  exec 4 (let* x := mph_yield_to_internal b once h fn arg in k x, K, s)
  = Running (fn (length (st_resumes s)) (VHdataField h) arg, K2,
             mkState (set_top (parent (handler fr)) (st_mem s))
               (st_resumes s ++
                  [mkResume (fun v => let* x := yield_relink b h (_mph_top (st_mem s)) v in k x)
                            K1 (negb once) true])
               (st_prompts s)).
Proof.
  intros Hh Hp Hsplit.
  unfold mph_yield_to_internal, load.
  cbn [run step bind]. rewrite Hh, Hp.
  cbn [run step bind]. rewrite Hsplit. reflexivity.
Qed.

Lemma run_resume (tl : bool) r q post K s tok :
  live_token r s = Some tok ->
  exec 1 (let* v := (if tl then mph_resume_tail r q else mph_resume r q) in post v, K, s)
  = Running (r_kont tok (VResumeEnv q false), r_stack tok ++ KRet post :: K,
             if r_multi tok then s else release r s).
Proof.
  intros Hlive. destruct tl; cbn [run step bind mph_resume mph_resume_tail];
    rewrite Hlive; reflexivity.
Qed.

(** [mph_yield_to_internal] after the substrate yield has returned a
    resume envelope without [unwind]: whatever [_mph_top] is at that
    moment, it becomes [yield_top], and so does the parent of [h]. *)
Lemma run_relink (b : bool) h fr yt q k K s :
  heap (st_mem s) !! h = Some fr ->
  exec 4 (let* x := yield_relink b h yt (VResumeEnv q false) in k x, K, s)
  = Running (k q, K, with_mem (store_parent h yt (set_top yt (st_mem s))) s).
Proof.
  intros Hh. unfold yield_relink.
  cbn [run step bind st_mem set_top heap]. rewrite Hh. reflexivity.
Qed.

(** The same with [unwind] set, in the C++ build: the unwind exception for
    [h] is thrown, with the identity unwind function. *)
Lemma run_relink_unwind h fr yt result k K s :
  heap (st_mem s) !! h = Some fr ->
  exec 4 (let* x := yield_relink true h yt (VResumeEnv result true) in k x, K, s)
  = Running (Throw (mkUnwind h Fn_mph_unwind_fun result), K,
             with_mem (store_parent h yt (set_top yt (st_mem s))) s).
Proof.
  intros Hh. unfold yield_relink.
  cbn [run step bind st_mem set_top heap]. rewrite Hh. reflexivity.
Qed.

(** The C build of [mph_unwind_to]: the unwind function is not called; the
    continuation up to the prompt of the target is dropped and [arg] is the
    value of that prompt. *)
Lemma run_unwind_fallback tgt fr p fn arg k K K1 K2 s :
  heap (st_mem s) !! tgt = Some fr ->
  prompt (handler fr) = PromptSome p ->
  split_at_prompt p K = Some (K1, K2) ->
  exists s',
    exec 3 (let* x := mph_unwind_to false tgt fn arg in k x, K, s)
    = Running (Ret arg, K2, s') /\ st_mem s' = st_mem s.
Proof.
  intros Hh Hp Hsplit. unfold mph_unwind_to, mph_abort_to, mph_abort_fun, load.
  cbn [run step bind]. rewrite Hh, Hp.
  cbn [run step bind]. rewrite Hsplit.
  cbn [run step bind]. rewrite live_token_new. cbn [r_live].
  eexists. split; [reflexivity|]. rewrite st_mem_release. reflexivity.
Qed.

(** [mph_yield_to_internal] after the substrate yield has returned an
    envelope with [unwind] set, in the C build: the value [result] goes to
    the prompt of [h], as the identity unwind function would return it. *)
Lemma run_relink_unwind_c h fr p yt result k K K1 K2 s :
  heap (st_mem s) !! h = Some fr ->
  prompt (handler fr) = PromptSome p ->
  split_at_prompt p K = Some (K1, K2) ->
  exists s',
    exec 7 (let* x := yield_relink false h yt (VResumeEnv result true) in k x, K, s)
    = Running (Ret result, K2, s') /\
    st_mem s' = store_parent h yt (set_top yt (st_mem s)).
Proof.
  intros Hh Hp Hsplit.
  assert (Hh' : heap (store_parent h yt (set_top yt (st_mem s))) !! h
                = Some (set_parent yt fr)).
  { unfold store_parent. cbn [heap set_top]. rewrite Hh. cbn [heap].
    apply list_lookup_insert_eq. eapply lookup_lt_Some; eauto. }
  unfold yield_relink, mph_unwind_to, mph_abort_to, mph_abort_fun, load.
  do 3 (rewrite run_S; cbn [step bind st_mem set_top heap _mph_top]).
  rewrite Hh.
  do 2 (rewrite run_S; cbn [step bind st_mem set_top heap _mph_top]).
  rewrite Hh'. cbn [set_parent handler prompt]. rewrite Hp.
  rewrite run_S; cbn [step bind]. rewrite Hsplit.
  rewrite run_S; cbn [step bind st_resumes st_mem st_prompts].
  rewrite live_token_new. cbn [r_live run].
  eexists. split; [reflexivity|]. rewrite st_mem_release. reflexivity.
Qed.

(** The C exit of [mph_with_handler(h)] after its body has returned [v]. *)
Lemma run_pop_handler h fr v K s :
  heap (st_mem s) !! h = Some fr ->
  exec 3 (pop_handler h ;;; Ret v, K, s)
  = Running (Ret v, K, with_mem (uninstall h (st_mem s)) s).
Proof.
  intros Hh. unfold pop_handler, load, uninstall.
  cbn [run step bind]. rewrite Hh. reflexivity.
Qed.

(** The C++ destructor path: an exception leaving [mph_with_handler(h)]. *)
Lemma run_throw_raii e h fr K s :
  _mph_top (st_mem s) = Some h ->
  heap (st_mem s) !! h = Some fr ->
  exec 6 (Throw e, raii_frames h ++ K, s)
  = Running (Throw e, K, with_mem (uninstall h (st_mem s)) s).
Proof.
  intros Htop Hh. unfold raii_frames, raii_destructor, pop_handler, load, uninstall.
  cbn [run step bind app]. rewrite Htop.
  destruct (decide (Some h = Some h)); [|congruence].
  cbn [run step bind]. rewrite Hh. reflexivity.
Qed.

(** C6. Round trip: when the handler-side function of a yield to the
    prompt handler [h] consumes its token with [mph_resume] (or
    [mph_resume_tail]) of [q], the yield site, [mph_yield_to] or
    [mph_myield_to], returns exactly [q] to its continuation [k]. *)
Theorem yield_resume_round_trip (b once tl : bool) h fr p q arg post k K K1 K2 s :
  heap (st_mem s) !! h = Some fr ->
  prompt (handler fr) = PromptSome p ->
  split_at_prompt p K = Some (K1, K2) ->
  exists s',
    exec 9 (let* x := mph_yield_to_internal b once h (resume_with tl q post) arg in k x,
            K, s)
    = Running (k q, K1 ++ KRet post :: K2, s') /\
    _mph_top (st_mem s') = _mph_top (st_mem s).
Proof.
  intros Hh Hp Hsplit.
  change 9 with (4 + (1 + 4)). rewrite run_add.
  rewrite (run_yield b once h fr p _ arg k K K1 K2 s Hh Hp Hsplit).
  cbv beta iota. rewrite run_add. unfold resume_with.
  erewrite run_resume by (rewrite live_token_new; reflexivity).
  cbv beta iota. cbn [r_kont r_stack r_multi].
  eexists. split.
  - erewrite run_relink; [reflexivity|].
    destruct (negb once); [|rewrite st_mem_release]; cbn [st_mem set_top heap]; exact Hh.
  - unfold with_mem, store_parent. cbn [st_mem].
    destruct (negb once); [|rewrite st_mem_release]; cbn [st_mem set_top heap _mph_top];
      rewrite Hh; reflexivity.
Qed.

(** C8. [mph_resume_drop(r)] on a live token does what [mph_resume_unwind(r)]
    does, resuming the continuation with the envelope [{NULL, true}], if and
    only if [mp_resume_should_unwind(r)] is true; otherwise, and only
    then, it releases the token with [mp_resume_drop] and returns, the
    continuation not being resumed. *)
Theorem resume_drop_unwinds_iff (r : mph_resume_t) tok k K s :
  live_token r s = Some tok ->
  (should_unwind r = true <->
   exec 2 (let* x := mph_resume_drop r in k x, K, s)
   = exec 1 (let* x := mph_resume_unwind r in k x, K, s)) /\
  (should_unwind r = false <->
   exec 2 (let* x := mph_resume_drop r in k x, K, s)
   = Running (k VNull, K, release r s)) /\
  exec 1 (let* x := mph_resume_unwind r in k x, K, s)
  = Running (r_kont tok (VResumeEnv VNull true),
             r_stack tok ++ KRet (fun _ => k VNull) :: K,
             if r_multi tok then s else release r s).
Proof.
  intros Hlive.
  assert (Hunwind :
    exec 1 (let* x := mph_resume_unwind r in k x, K, s)
    = Running (r_kont tok (VResumeEnv VNull true),
               r_stack tok ++ KRet (fun _ => k VNull) :: K,
               if r_multi tok then s else release r s)).
  { cbn [run step bind mph_resume_unwind]. rewrite Hlive. reflexivity. }
  assert (Hdrop :
    exec 2 (let* x := mph_resume_drop r in k x, K, s)
    = if should_unwind r
      then exec 1 (let* x := mph_resume_unwind r in k x, K, s)
      else Running (k VNull, K, release r s)).
  { unfold mph_resume_drop. cbn [bind]. rewrite run_S. cbn [step].
    rewrite Hlive. destruct (should_unwind r); [reflexivity|].
    cbn [run step bind]. rewrite Hlive. reflexivity. }
  assert (Hneq :
    exec 1 (let* x := mph_resume_unwind r in k x, K, s)
    <> Running (k VNull, K, release r s)).
  { rewrite Hunwind. intros Heq. inversion Heq as [[Hk HK Hs]].
    apply (f_equal (@length kframe)) in HK.
    rewrite length_app in HK. simpl in HK. lia. }
  rewrite Hdrop. destruct (should_unwind r).
  - split; [split; auto|].
    split; [|exact Hunwind].
    split; [discriminate|]. intros Heq. exfalso. apply Hneq. exact Heq.
  - split; [|split; [split; auto | exact Hunwind]].
    split; [discriminate|]. intros Heq. exfalso. apply Hneq. symmetry. exact Heq.
Qed.

(** Unwind transport on an intact stack.  In the C++ build the yield site
    that receives an envelope with [unwind] set throws the token
    [{h, mph_unwind_fun, result}].  A token arriving at [mph_start] of the
    frame [h] while [_mph_top] is [h] is caught there exactly when its
    target is [h]: then [fun(hdata, arg)] is called inside [mph_start],
    and what it returns is returned by [mph_start] and so by the prompt;
    a token for another target leaves [mph_start], its prompt and every
    [mph_with_handler] block unchanged, the block only popping its frame.
    In the C build, which has no token and never calls [fun], [result] is
    the value of the prompt of [h]. *)
Theorem unwind_caught_at_target (e : mph_unwind_exception) h fr p env k K s s2 :
  h = length (heap (st_mem s)) ->
  _mph_top (st_mem s2) = Some h ->
  heap (st_mem s2) !! h = Some fr ->
  exec 7 (let* x := mph_prompt true (env_kind env) (hdata_size env) (env_body env)
                      (env_arg env) in k x, K, s)
    = Running (env_body env (VLocal h) (env_arg env),
               start_frames h ++ KPrompt (st_prompts s) :: KRet k :: K,
               mkState (install (prompt_frame (st_prompts s) (env_kind env) h) (st_mem s))
                       (st_resumes s) (S (st_prompts s))) /\
  (forall yt result k',
     exec 4 (let* x := yield_relink true h yt (VResumeEnv result true) in k' x, K, s2)
     = Running (Throw (mkUnwind h Fn_mph_unwind_fun result), K,
                with_mem (store_parent h yt (set_top yt (st_mem s2))) s2)) /\
  (target e = h ->
   exec 7 (Throw e, start_frames h ++ KPrompt p :: KRet k :: K, s2)
     = Running (call_unwind_fun (ufun e) (VLocal h) (uarg e),
                KRet Ret :: KPrompt p :: KRet k :: K,
                with_mem (uninstall h (st_mem s2)) s2)) /\
  (target e <> h ->
   exec 10 (Throw e, start_frames h ++ KPrompt p :: KRet k :: K, s2)
     = Running (Throw e, K, with_mem (uninstall h (st_mem s2)) s2)) /\
  exec 6 (Throw e, raii_frames h ++ K, s2)
    = Running (Throw e, K, with_mem (uninstall h (st_mem s2)) s2) /\
  (forall hd arg s3,
     call_unwind_fun Fn_mph_unwind_fun hd arg = Ret arg /\
     forall n, exec 1 (call_unwind_fun (Fn_user n) hd arg,
                       KRet Ret :: KPrompt p :: KRet k :: K, s3)
               = Running (user_unwind n hd arg,
                          KRet Ret :: KRet Ret :: KPrompt p :: KRet k :: K, s3)) /\
  (forall v s3, exec 3 (Ret v, KRet Ret :: KPrompt p :: KRet k :: K, s3)
                = Running (k v, K, s3)) /\
  (forall yt result k' K' K1 K2,
     prompt (handler fr) = PromptSome p ->
     split_at_prompt p K' = Some (K1, K2) ->
     exists s',
       exec 7 (let* x := yield_relink false h yt (VResumeEnv result true) in k' x, K', s2)
       = Running (Ret result, K2, s')).
Proof.
  intros -> Htop Hh.
  split; [reflexivity|].
  split.
  { intros yt result k'. apply (run_relink_unwind _ fr). exact Hh. }
  split.
  { intros Ht. unfold start_frames. rewrite <- app_assoc.
    change 7 with (6 + 1). rewrite run_add.
    rewrite (run_throw_raii e _ fr _ s2 Htop Hh).
    cbn [run step app]. unfold start_catch.
    destruct (decide (target e <> length (heap (st_mem s)))); [congruence|reflexivity]. }
  split.
  { intros Ht. unfold start_frames. rewrite <- app_assoc.
    change 10 with (6 + 4). rewrite run_add.
    rewrite (run_throw_raii e _ fr _ s2 Htop Hh).
    cbn [run step app]. unfold start_catch.
    destruct (decide (target e <> length (heap (st_mem s)))); [reflexivity|contradiction]. }
  split.
  { apply (run_throw_raii e _ fr _ s2 Htop Hh). }
  split.
  { intros hd arg s3. split; reflexivity. }
  split.
  { intros v s3. reflexivity. }
  intros yt result k' K' K1 K2 Hp Hsplit.
  destruct (run_relink_unwind_c _ fr p yt result k' K' K1 K2 s2 Hh Hp Hsplit)
    as (s' & Hrun & _).
  exists s'. exact Hrun.
Qed.

End OnMachine.

(** ** Examples *)

(** Scenario S3: the search inside the mask finds no handler.  Scenario S4:
    the search inside the under frame finds the outer handler, frame 0. *)
Example scenario_S3_value (b : bool) :
  final_value (run no_user_unwind never_unwind 40 (scenario_S3 b, [], init_state))
  = Some VNull.
Proof. destruct b; vm_compute; reflexivity. Qed.

Example scenario_S4_value (b : bool) :
  final_value (run no_user_unwind never_unwind 60 (scenario_S4 b, [], init_state))
  = Some (VHandler 0).
Proof. destruct b; vm_compute; reflexivity. Qed.

Lemma yield_resume_round_trip_witness :
  let s := mkState (install (prompt_frame 0 (UserKind 0) 0) (mkMem [] None)) [] 1 in
  exists s',
    run no_user_unwind never_unwind 9
      (let* x := mph_yield_to_internal false true 0 (resume_with false (VWord 7) Ret) VNull
       in Ret x, [KPrompt 0], s)
    = Running (Ret (VWord 7), [KPrompt 0; KRet Ret], s') /\
    _mph_top (st_mem s') = Some 0.
Proof.
  intros s.
  exact (yield_resume_round_trip no_user_unwind never_unwind false true false 0
           (set_parent None (prompt_frame 0 (UserKind 0) 0)) 0 (VWord 7) VNull Ret Ret
           [KPrompt 0] [KPrompt 0] [] s eq_refl eq_refl eq_refl).
Defined.

Lemma resume_drop_unwinds_iff_witness :
  let tok := mkResume Ret [KPrompt 0] false true in
  let s := mkState (mkMem [] None) [tok] 1 in
  live_token 0 s = Some tok /\
  run no_user_unwind always_unwind 1 (let* x := mph_resume_unwind 0 in Ret x, [], s)
  = Running (Ret (VResumeEnv VNull true), [KPrompt 0; KRet (fun _ => Ret VNull)],
             release 0 s).
Proof.
  intros tok s. split; [reflexivity|].
  exact (proj2 (proj2 (resume_drop_unwinds_iff no_user_unwind always_unwind 0 tok Ret [] s
                         eq_refl))).
Defined.

Lemma unwind_caught_at_target_witness :
  let s2 := with_mem (install (prompt_frame 0 (UserKind 0) 0) (mkMem [] None)) init_state in
  let e := mkUnwind 0 Fn_mph_unwind_fun (VWord 9) in
  run no_user_unwind never_unwind 7
    (Throw e, start_frames 0 ++ [KPrompt 0; KRet Ret], s2)
  = Running (Ret (VWord 9), [KRet Ret; KPrompt 0; KRet Ret],
             with_mem (uninstall 0 (st_mem s2)) s2).
Proof.
  intros s2 e.
  destruct (unwind_caught_at_target no_user_unwind never_unwind e 0
              (set_parent None (prompt_frame 0 (UserKind 0) 0)) 0
              (mkStartEnv (UserKind 0) 0 (fun _ arg => Ret arg) VNull) Ret [] init_state s2
              eq_refl eq_refl eq_refl) as (_ & _ & Hcatch & _).
  exact (Hcatch eq_refl).
Defined.

(** ** Code without substrate calls *)

Lemma run_trans uu su n m c c' st :
  run uu su n c = Running c' -> run uu su m c' = st -> run uu su (n + m) c = st.
Proof. intros H1 H2. rewrite run_add, H1. exact H2. Qed.

(** The machine arrives at the outcome [eval] computes. *)
Lemma eval_run uu su t :
  forall s o K, eval t s = Some o -> exists n, run uu su n (t, K, s) = arrived o K.
Proof.
  induction t as [v| |k IH|m k IH|f hd arg k IH|e|body IHb catch IHc k IHk
                 |start IHs k IHk|multi p f IHf k IHk|tl r arg k IHk|r k IHk|r k IHk];
    intros s o K Hev; simpl in Hev; try discriminate.
  - injection Hev as <-. exists 0. reflexivity.
  - destruct (IH _ _ _ K Hev) as [n Hn]. exists (1 + n).
    eapply run_trans; [reflexivity | exact Hn].
  - destruct (IH _ _ K Hev) as [n Hn]. exists (1 + n).
    eapply run_trans; [reflexivity | exact Hn].
  - injection Hev as <-. exists 0. reflexivity.
  - destruct (eval body s) as [[v s1|e s1]|] eqn:Hb; [| |discriminate].
    + destruct (IHb _ _ (KCatch catch :: KRet k :: K) Hb) as [n1 H1].
      destruct (IHk v _ _ K Hev) as [n2 H2].
      exists (1 + (n1 + (2 + n2))).
      eapply run_trans; [reflexivity|].
      eapply run_trans; [exact H1|].
      eapply run_trans; [reflexivity | exact H2].
    + destruct (IHb _ _ (KCatch catch :: KRet k :: K) Hb) as [n1 H1].
      destruct (eval (catch e) s1) as [[v s2|e' s2]|] eqn:Hc; [| |discriminate].
      * destruct (IHc e _ _ (KRet k :: K) Hc) as [n2 H2].
        destruct (IHk v _ _ K Hev) as [n3 H3].
        exists (1 + (n1 + (1 + (n2 + (1 + n3))))).
        eapply run_trans; [reflexivity|].
        eapply run_trans; [exact H1|].
        eapply run_trans; [reflexivity|].
        eapply run_trans; [exact H2|].
        eapply run_trans; [reflexivity | exact H3].
      * injection Hev as <-.
        destruct (IHc e _ _ (KRet k :: K) Hc) as [n2 H2].
        exists (1 + (n1 + (1 + (n2 + 1)))).
        eapply run_trans; [reflexivity|].
        eapply run_trans; [exact H1|].
        eapply run_trans; [reflexivity|].
        eapply run_trans; [exact H2 | reflexivity].
  - destruct (eval (start (st_prompts s)) _) as [[v s1|e s1]|] eqn:Hs; [| |discriminate].
    + destruct (IHs _ _ _ (KPrompt (st_prompts s) :: KRet k :: K) Hs) as [n1 H1].
      destruct (IHk v _ _ K Hev) as [n2 H2].
      exists (1 + (n1 + (2 + n2))).
      eapply run_trans; [reflexivity|].
      eapply run_trans; [exact H1|].
      eapply run_trans; [reflexivity | exact H2].
    + injection Hev as <-.
      destruct (IHs _ _ _ (KPrompt (st_prompts s) :: KRet k :: K) Hs) as [n1 H1].
      exists (1 + (n1 + 2)).
      eapply run_trans; [reflexivity|].
      eapply run_trans; [exact H1 | reflexivity].
Qed.

Lemma eval_bind t g :
  forall s, eval (bind t g) s =
            match eval t s with
            | Some (Normal v s') => eval (g v) s'
            | o => o
            end.
Proof.
  induction t as [v| |k IH|m k IH|f hd arg k IH|e|body IHb catch IHc k IHk
                 |start IHs k IHk|multi p f IHf k IHk|tl r arg k IHk|r k IHk|r k IHk];
    intros s; simpl; auto.
  - destruct (eval body s) as [[v s1|e s1]|]; auto.
    destruct (eval (catch e) s1) as [[v s2|e' s2]|]; auto.
  - destruct (eval (start (st_prompts s)) _) as [[v s1|e s1]|]; auto.
Qed.

Lemma eval_pop_handler h s :
  eval (pop_handler h) s =
  match heap (st_mem s) !! h with
  | Some fr => Some (Normal VNull (with_mem (set_top (parent (handler fr)) (st_mem s)) s))
  | None => None
  end.
Proof.
  unfold pop_handler, load. simpl. destruct (heap (st_mem s) !! h); reflexivity.
Qed.

Lemma eval_raii_destructor h s :
  eval (raii_destructor h) s =
  if decide (_mph_top (st_mem s) = Some h) then eval (pop_handler h) s else None.
Proof.
  unfold raii_destructor. simpl.
  destruct (decide (_mph_top (st_mem s) = Some h)); reflexivity.
Qed.

(** The outcome of a scoped installation, from the outcome of its body. *)
Lemma eval_with_handler (b : bool) fr (body : addr -> prog) s :
  eval (local_frame (fun _ => fr) (fun h => mph_with_handler b h (body h))) s =
  match eval (body (length (heap (st_mem s)))) (with_mem (install fr (st_mem s)) s) with
  | Some o => exit_handler b (length (heap (st_mem s))) o
  | None => None
  end.
Proof.
  unfold local_frame, mph_with_handler, push_handler.
  destruct b.
  - cbn [eval with_mem st_mem st_resumes st_prompts].
    change (with_mem _ (with_mem _ s)) with (with_mem (install fr (st_mem s)) s).
    destruct (eval (body (length (heap (st_mem s)))) (with_mem (install fr (st_mem s)) s))
      as [[v s2|e s2]|]; [| |reflexivity].
    + rewrite eval_bind, eval_raii_destructor, eval_pop_handler.
      unfold exit_handler. cbn [out_state].
      destruct (decide (_mph_top (st_mem s2) = Some _)); [|reflexivity].
      destruct (heap (st_mem s2) !! _); reflexivity.
    + rewrite eval_bind, eval_raii_destructor, eval_pop_handler.
      unfold exit_handler. cbn [out_state].
      destruct (decide (_mph_top (st_mem s2) = Some _)); [|reflexivity].
      destruct (heap (st_mem s2) !! _); reflexivity.
  - cbn [eval with_mem st_mem st_resumes st_prompts].
    change (with_mem _ (with_mem _ s)) with (with_mem (install fr (st_mem s)) s).
    rewrite eval_bind.
    destruct (eval (body (length (heap (st_mem s)))) (with_mem (install fr (st_mem s)) s))
      as [[v s2|e s2]|]; [| reflexivity |reflexivity].
    rewrite eval_bind, eval_pop_handler.
    unfold exit_handler. cbn [out_state].
    destruct (heap (st_mem s2) !! _); reflexivity.
Qed.

Lemma kept_refl s : kept s s.
Proof. split; [reflexivity|]. exists []. symmetry. apply app_nil_r. Qed.

(** A scoped installation around a body that leaves the stack it found
    leaves the stack it found. *)
Lemma with_handler_scoped (b : bool) fr (body : addr -> prog) s o :
  eval (body (length (heap (st_mem s)))) (with_mem (install fr (st_mem s)) s) = Some o ->
  kept (with_mem (install fr (st_mem s)) s) (out_state o) ->
  (b = false -> exists v s2, o = Normal v s2) ->
  exists s',
    eval (local_frame (fun _ => fr) (fun h => mph_with_handler b h (body h))) s
    = Some (with_out_state o s') /\
    kept s s' /\ st_resumes s' = st_resumes (out_state o) /\
    st_prompts s' = st_prompts (out_state o).
Proof.
  intros Hev [Htop [ext Hheap]] Hc.
  rewrite eval_with_handler, Hev.
  cbn [with_mem st_mem] in Htop, Hheap.
  rewrite install_top in Htop. rewrite install_heap in Hheap.
  assert (Hlook : heap (st_mem (out_state o)) !! length (heap (st_mem s))
                  = Some (set_parent (_mph_top (st_mem s)) fr)).
  { rewrite Hheap, <- app_assoc. apply list_lookup_middle. reflexivity. }
  exists (with_mem (set_top (_mph_top (st_mem s)) (st_mem (out_state o))) (out_state o)).
  split; [|split; [split|split]]; try reflexivity.
  - unfold exit_handler, addr in *. cbv zeta. rewrite Hlook. cbn [set_parent handler parent].
    destruct o as [v s2|e s2]; cbn [out_state] in *.
    + destruct b; [|reflexivity].
      destruct (decide _); [reflexivity | contradiction].
    + destruct b.
      * destruct (decide _); [reflexivity | contradiction].
      * destruct (Hc eq_refl) as (v & s3 & Hv). discriminate.
  - cbn [with_mem st_mem set_top heap]. rewrite Hheap, <- app_assoc. eauto.
Qed.

Section Scoped.

Variable user_unwind : nat -> val -> val -> prog.
Variable should_unwind : mph_resume_t -> bool.

#[local] Abbreviation exec := (run user_unwind should_unwind).

Lemma linear_handler_run (b : bool) k hd (fn : mph_start_fun_t) arg K s o :
  eval (fn hd arg) (with_mem (install (linear_frame k hd) (st_mem s)) s) = Some o ->
  kept (with_mem (install (linear_frame k hd) (st_mem s)) s) (out_state o) ->
  (b = false -> exists v s2, o = Normal v s2) ->
  exists n s',
    exec n (mph_linear_handler b k hd fn arg, K, s) = arrived (with_out_state o s') K /\
    kept s s'.
Proof.
  intros Hev Hkept Hc.
  destruct (with_handler_scoped b (linear_frame k hd)
              (fun h => load h (fun fr => fn (hdata (handler fr)) arg)) s o)
    as (s' & Hev' & Hk & _); auto.
  { unfold load. cbn [eval with_mem st_mem]. rewrite install_lookup_new. exact Hev. }
  destruct (eval_run user_unwind should_unwind _ _ _ K Hev') as [n Hn].
  exists n, s'. split; [exact Hn | exact Hk].
Qed.

(** X1. A linear handler whose body neither yields nor resumes and leaves
    the stack as it found it returns what the body returns, with
    [_mph_top] and every frame of the caller as before the call; in the
    C++ build an exception of the body leaves the handler unchanged, with
    the same restoration. *)
Theorem linear_handler_scoped (b : bool) k hd (fn : mph_start_fun_t) arg K s o :
  let s1 := with_mem (install (linear_frame k hd) (st_mem s)) s in
  eval (fn hd arg) s1 = Some o ->
  kept s1 (out_state o) ->
  (b = false -> exists v s2, o = Normal v s2) ->
  exists n s',
    exec n (mph_linear_handler b k hd fn arg, K, s) = arrived (with_out_state o s') K /\
    kept s s'.
Proof. intros s1. apply linear_handler_run. Qed.

(** X2. The same for [mph_under] ([which] true) and [mph_mask] ([which]
    false). *)
Theorem under_mask_scoped (b which : bool) u mk from (fn : val -> prog) arg K s o :
  let fr := if which then under_frame u else mask_frame mk from in
  let t := if which then mph_under b u fn arg else mph_mask b mk from fn arg in
  let s1 := with_mem (install fr (st_mem s)) s in
  eval (fn arg) s1 = Some o ->
  kept s1 (out_state o) ->
  (b = false -> exists v s2, o = Normal v s2) ->
  exists n s',
    exec n (t, K, s) = arrived (with_out_state o s') K /\ kept s s'.
Proof.
  intros fr t s1 Hev Hkept Hc.
  destruct (with_handler_scoped b fr (fun _ => fn arg) s o) as (s' & Hev' & Hk & _); auto.
  assert (Ht : eval t s = Some (with_out_state o s')).
  { destruct which; exact Hev'. }
  destruct (eval_run user_unwind should_unwind _ _ _ K Ht) as [n Hn].
  exists n, s'. split; [exact Hn | exact Hk].
Qed.

(** X3. Scenario S1 on every stack: a linear handler of kind [k] with data
    [hd] whose body returns [mph_data(mph_find(k))] returns [hd], and the
    stack is as before the call. *)
Theorem linear_ask (b : bool) fuel k hd arg K s :
  exists n s',
    exec n (mph_linear_handler b k hd (fun _ _ => user_ask (S fuel) k) arg, K, s)
    = Running (Ret hd, K, s') /\ kept s s'.
Proof.
  set (s1 := with_mem (install (linear_frame k hd) (st_mem s)) s).
  destruct (linear_handler_run b k hd (fun _ _ => user_ask (S fuel) k) arg K s
              (Normal hd s1)) as (n & s' & Hrun & Hk).
  - unfold user_ask. cbn [eval with_mem st_mem].
    rewrite (find_install_match fuel (linear_frame k hd) (st_mem s) k eq_refl).
    rewrite mph_data_install. reflexivity.
  - apply kept_refl.
  - eauto.
  - exists n, s'. split; [exact Hrun | exact Hk].
Qed.

Lemma eval_start (b : bool) p env s :
  eval (mph_start b p env) s =
  match eval (local_frame (fun _ => prompt_frame p (env_kind env) (length (heap (st_mem s))))
                (fun h => mph_with_handler b h
                            (env_body env (VLocal (length (heap (st_mem s)))) (env_arg env))))
             s with
  | Some (Raised e s3) =>
    if b then eval (start_catch (length (heap (st_mem s))) (VLocal (length (heap (st_mem s)))) e) s3
    else Some (Raised e s3)
  | o => o
  end.
Proof.
  destruct b.
  - unfold mph_start, local_frame. cbn [eval].
    destruct (eval (mph_with_handler true _ _) _) as [[v s3|e s3]|]; try reflexivity.
    destruct (eval (start_catch _ _ e) s3) as [[v s4|e' s4]|]; reflexivity.
  - unfold mph_start, local_frame. cbn [eval].
    destruct (eval (mph_with_handler false _ _) _) as [[v s3|e s3]|]; reflexivity.
Qed.

(** X4. A prompt handler whose body neither yields nor resumes and leaves
    the stack as it found it returns what the body returns, with
    [_mph_top] and every frame of the caller as before the call.  In the
    C++ build an exception of the body for another target leaves the
    prompt unchanged, and one for this frame with the identity unwind
    function makes the prompt return its argument, with the same
    restoration. *)
Theorem prompt_scoped (b : bool) k size (fn : mph_start_fun_t) arg K s o :
  let h := length (heap (st_mem s)) in
  let s1 := mkState (install (prompt_frame (st_prompts s) k h) (st_mem s))
                    (st_resumes s) (S (st_prompts s)) in
  eval (fn (VLocal h) arg) s1 = Some o ->
  kept s1 (out_state o) ->
  (b = false -> exists v s2, o = Normal v s2) ->
  (forall e s2, o = Raised e s2 -> target e = h -> ufun e = Fn_mph_unwind_fun) ->
  exists n s',
    exec n (mph_prompt b k size fn arg, K, s)
    = arrived (start_outcome h (with_out_state o s')) K /\
    kept s s'.
Proof.
  intros h s1 Hev Hkept Hc Hid.
  set (sp := mkState (st_mem s) (st_resumes s) (S (st_prompts s))).
  destruct (with_handler_scoped b (prompt_frame (st_prompts s) k h)
              (fun _ => fn (VLocal h) arg) sp o) as (s' & Hev' & Hk & _); auto.
  assert (Hp : eval (mph_prompt b k size fn arg) s
               = Some (start_outcome h (with_out_state o s'))).
  { unfold mph_prompt. cbn [eval]. fold sp.
    rewrite eval_start. cbn [env_kind env_body env_arg]. fold h.
    change (length (heap (st_mem sp))) with h.
    rewrite Hev'.
    destruct o as [v s2|e s2]; cbn [with_out_state start_outcome]; [reflexivity|].
    destruct b.
    - unfold start_catch. cbn [target].
      destruct (decide (target e <> h)) as [Hne|Heq];
        destruct (decide (target e = h)) as [Heq'|Hne']; try contradiction.
      + reflexivity.
      + rewrite (Hid e s2 eq_refl Heq'). reflexivity.
    - destruct (Hc eq_refl) as (v & s3 & Hv). discriminate. }
  destruct (eval_run user_unwind should_unwind _ _ _ K Hp) as [n Hn].
  exists n, s'. split; [exact Hn | exact Hk].
Qed.

End Scoped.

Lemma linear_handler_scoped_witness :
  exists n s',
    run no_user_unwind never_unwind n
      (mph_linear_handler true (UserKind 0) (VWord 1)
         (fun _ _ => Throw (mkUnwind 7 Fn_mph_unwind_fun VNull)) VNull, [], init_state)
    = Running (Throw (mkUnwind 7 Fn_mph_unwind_fun VNull), [], s') /\
    kept init_state s'.
Proof.
  apply (linear_handler_scoped no_user_unwind never_unwind true (UserKind 0) (VWord 1)
           (fun _ _ => Throw (mkUnwind 7 Fn_mph_unwind_fun VNull)) VNull [] init_state
           (Raised (mkUnwind 7 Fn_mph_unwind_fun VNull)
                   (with_mem (install (linear_frame (UserKind 0) (VWord 1))
                                      (st_mem init_state)) init_state))).
  - reflexivity.
  - apply kept_refl.
  - discriminate.
Defined.

Lemma under_mask_scoped_witness :
  exists n s',
    run no_user_unwind never_unwind n
      (mph_mask false (UserKind 0) 3 (fun arg => Ret arg) (VWord 5), [], init_state)
    = Running (Ret (VWord 5), [], s') /\
    kept init_state s'.
Proof.
  apply (under_mask_scoped no_user_unwind never_unwind false false (UserKind 0) (UserKind 0)
           3%N (fun arg => Ret arg) (VWord 5) [] init_state
           (Normal (VWord 5)
                   (with_mem (install (mask_frame (UserKind 0) 3) (st_mem init_state))
                             init_state))).
  - reflexivity.
  - apply kept_refl.
  - eauto.
Defined.

Lemma prompt_scoped_witness :
  exists n s',
    run no_user_unwind never_unwind n
      (mph_prompt true (UserKind 0) 4
         (fun _ _ => Throw (mkUnwind 0 Fn_mph_unwind_fun (VWord 9))) VNull, [], init_state)
    = Running (Ret (VWord 9), [], s') /\
    kept init_state s'.
Proof.
  apply (prompt_scoped no_user_unwind never_unwind true (UserKind 0) 4%N
           (fun _ _ => Throw (mkUnwind 0 Fn_mph_unwind_fun (VWord 9))) VNull [] init_state
           (Raised (mkUnwind 0 Fn_mph_unwind_fun (VWord 9))
                   (mkState (install (prompt_frame 0 (UserKind 0) 0) (st_mem init_state))
                            [] 1))).
  - reflexivity.
  - apply kept_refl.
  - discriminate.
  - intros e s2 [= <- _] _. reflexivity.
Defined.

(** ** More on the search *)



(** X6. Effect not handled: on a stack that holds, down to its root, only
    frames that are neither of kind [k] nor under or mask frames, and on
    the empty stack, [mph_find(k)] returns none. *)
Theorem find_unhandled n k (frs hp : list frame) :
  Forall (plain k) frs ->
  mph_find (length frs + S n) (installs frs (mkMem hp None)) k = Ok None.
Proof.
  intros Hall. apply find_installs_plain; [assumption | reflexivity].
Qed.

Lemma find_unhandled_witness :
  mph_find 3 (installs [linear_frame (UserKind 1) VNull; linear_frame MPH_FINALLY VNull]
                       (mkMem [] None)) (UserKind 0) = Ok None.
Proof.
  apply (find_unhandled 0 (UserKind 0)
           [linear_frame (UserKind 1) VNull; linear_frame MPH_FINALLY VNull] []).
  repeat constructor; discriminate.
Defined.

(** X7. Where no frame of the store is an under or mask frame, what
    [mph_find(k)] returns is the first frame of kind [k] on the parent
    chain from [_mph_top]. *)
Theorem find_is_first_of_kind n m k r :
  Forall user_frame (heap m) ->
  mph_find n m k = Ok r ->
  innermost_of_kind n (heap m) k (_mph_top m) = r.
Proof.
  intros Hall. unfold mph_find. generalize (_mph_top m) as h.
  induction n as [|n IH]; intros h; simpl; [discriminate|].
  destruct h as [a|]; [|intros [= <-]; reflexivity].
  destruct (heap m !! a) as [f|] eqn:Ha; [|discriminate].
  assert (Hf : user_frame f).
  { eapply Forall_lookup_1; eauto. }
  destruct Hf as [Hu Hm].
  destruct (decide (k = kind (handler f))) as [->|Hne].
  { destruct (decide (kind (handler f) = kind (handler f))); [|congruence].
    intros [= <-]. reflexivity. }
  destruct (decide (kind (handler f) = k)); [congruence|].
  destruct (decide (kind (handler f) = MPH_UNDER)); [contradiction|].
  destruct (decide (kind (handler f) = MPH_MASK)); [contradiction|].
  apply IH.
Qed.

Lemma find_is_first_of_kind_witness :
  let m := installs [linear_frame (UserKind 0) VNull; linear_frame (UserKind 1) VNull]
                    (mkMem [] None) in
  innermost_of_kind 3 (heap m) (UserKind 0) (_mph_top m) = Some 0.
Proof.
  intros m.
  apply (find_is_first_of_kind 3 m (UserKind 0) (Some 0)).
  - repeat constructor; discriminate.
  - reflexivity.
Defined.

(** X8. A search that returns is not changed by frames allocated later and
    not linked below [_mph_top], nor by a larger loop bound. *)
Theorem find_stable n n' m k r (ext : list frame) :
  mph_find n m k = Ok r ->
  n <= n' ->
  mph_find n' (mkMem (heap m ++ ext) (_mph_top m)) k = Ok r.
Proof.
  intros Hfind Hle. unfold mph_find. cbn [heap _mph_top].
  apply find_loop_ext. eapply find_loop_mono; eauto.
Qed.

Lemma find_stable_witness :
  let m := install (linear_frame (UserKind 0) VNull) (mkMem [] None) in
  mph_find 5 (mkMem (heap m ++ [under_frame (UserKind 0)]) (_mph_top m)) (UserKind 0)
  = Ok (Some 0).
Proof.
  intros m.
  apply (find_stable 1 5 m (UserKind 0) (Some 0) [under_frame (UserKind 0)]).
  - reflexivity.
  - lia.
Defined.

(** X9. [mph_find] has no cycle check: from a frame that is its own parent
    and at which the search for [k] does not stop, no loop bound is
    enough. *)
Theorem find_never_returns_on_self_parent fuel m k a f :
  _mph_top m = Some a ->
  heap m !! a = Some f ->
  parent (handler f) = Some a ->
  plain k f ->
  mph_find fuel m k = OutOfFuel.
Proof.
  intros Htop Ha Hp Hpl. unfold mph_find. rewrite Htop.
  eapply find_loop_self_parent; eauto.
Qed.

Lemma find_never_returns_on_self_parent_witness :
  mph_find 1000
    (mkMem [mkFrame (mkHandler (Some 0) (PromptSome 0) (UserKind 0) (VLocal 0)) TailNone]
           (Some 0))
    (UserKind 1) = OutOfFuel.
Proof.
  eapply (find_never_returns_on_self_parent 1000 _ (UserKind 1) 0); try reflexivity.
  repeat split; discriminate.
Defined.

(** *** Frames the search cannot tell apart *)

Lemma same_lookup (hp1 hp2 : list frame) (i : addr) :
  Forall2 same_for_find hp1 hp2 ->
  (exists f g, hp1 !! i = Some f /\ hp2 !! i = Some g /\ same_for_find f g) \/
  (hp1 !! i = None /\ hp2 !! i = None).
Proof.
  intros Hrel. pose proof (proj1 (Forall2_lookup _ _ _) Hrel i) as Hi.
  inversion Hi as [f g Hfg Hf Hg | Hf Hg]; [left; eauto | right; auto].
Qed.

Lemma skip_to_same n hp1 hp2 uk h :
  Forall2 same_for_find hp1 hp2 ->
  skip_to n hp1 uk h = skip_to n hp2 uk h.
Proof.
  intros Hrel. revert h. induction n as [|n IH]; intros h; simpl; [reflexivity|].
  destruct (same_lookup _ _ h Hrel) as [(f & g & Hf & Hg & Hfg)|[Hf Hg]];
    rewrite Hf, Hg; [|reflexivity].
  destruct Hfg as (Hh & _ & _). rewrite <- Hh.
  destruct (parent (handler f)) as [p|]; [|reflexivity].
  destruct (same_lookup _ _ p Hrel) as [(f' & g' & Hf' & Hg' & Hfg')|[Hf' Hg']];
    rewrite Hf', Hg'; [|reflexivity].
  destruct Hfg' as (Hh' & _ & _). rewrite <- Hh'.
  destruct (decide _); auto.
Qed.

Lemma find_loop_same n hp1 hp2 k h lvl :
  Forall2 same_for_find hp1 hp2 ->
  find_loop n hp1 k h lvl = find_loop n hp2 k h lvl.
Proof.
  intros Hrel. revert h lvl. induction n as [|n IH]; intros h lvl; simpl; [reflexivity|].
  destruct h as [a|]; [|reflexivity].
  destruct (same_lookup _ _ a Hrel) as [(f & g & Hf & Hg & Hfg)|[Hf Hg]];
    rewrite Hf, Hg; [|reflexivity].
  destruct Hfg as (Hh & Hu & Hm). rewrite <- Hh, <- Hu.
  destruct (decide (k = kind (handler f))).
  { destruct (lvl <=? 0)%N; auto. }
  destruct (decide (kind (handler f) = MPH_UNDER)).
  { destruct (read_under f) as [uk|]; [|reflexivity].
    rewrite (skip_to_same n hp1 hp2 uk a Hrel).
    destruct (skip_to n hp2 uk a) as [[a'|]| |]; try reflexivity.
    destruct (same_lookup _ _ a' Hrel) as [(f' & g' & Hf' & Hg' & Hfg')|[Hf' Hg']];
      rewrite Hf', Hg'; [|reflexivity].
    destruct Hfg' as (Hh' & _ & _). rewrite <- Hh'. auto. }
  destruct (decide (kind (handler f) = MPH_MASK)) as [Hk|]; [|auto].
  rewrite <- (Hm Hk).
  destruct (read_mask f) as [[mk fr]|]; auto.
Qed.

Lemma same_for_find_refl f : same_for_find f f.
Proof. repeat split. Qed.

Lemma installs_same frs m1 m2 :
  Forall2 same_for_find (heap m1) (heap m2) ->
  _mph_top m1 = _mph_top m2 ->
  Forall2 same_for_find (heap (installs frs m1)) (heap (installs frs m2)) /\
  _mph_top (installs frs m1) = _mph_top (installs frs m2).
Proof.
  revert m1 m2. induction frs as [|fr frs IH]; intros m1 m2 Hrel Htop; simpl; [auto|].
  apply IH.
  - rewrite !install_heap, Htop. apply Forall2_app; [assumption|].
    constructor; [apply same_for_find_refl | constructor].
  - rewrite !install_top. f_equal. eapply Forall2_length; eauto.
Qed.

(** X10. A frame of [mph_mask(mk, from)] is searched exactly as a frame of
    [mph_under(mk)]: on every stack, with any frames installed inside, and
    for every kind searched, [mph_find] gives the same result for both;
    in particular [from] is never read. *)
Theorem mask_searched_as_under fuel k mk from (frs : list frame) (m : mem) :
  mph_find fuel (installs frs (install (mask_frame mk from) m)) k
  = mph_find fuel (installs frs (install (under_frame mk) m)) k.
Proof.
  destruct (installs_same frs (install (mask_frame mk from) m) (install (under_frame mk) m))
    as [Hrel Htop].
  - rewrite !install_heap. apply Forall2_app.
    + apply Forall2_same_length_lookup_2; [reflexivity|].
      intros i x y Hx Hy. rewrite Hx in Hy. injection Hy as <-. apply same_for_find_refl.
    + constructor; [|constructor]. repeat split. discriminate.
  - rewrite !install_top. reflexivity.
  - unfold mph_find. rewrite Htop. apply find_loop_same. exact Hrel.
Qed.

(** *** An under frame without its handler *)

Lemma skip_arrive_root pre hp uk :
  Forall (fun g => kind (handler g) <> uk) pre ->
  skip_arrive (length pre) (heap (installs pre (mkMem hp None))) uk
              (_mph_top (installs pre (mkMem hp None)))
  = Ok None.
Proof.
  induction pre as [|g pre IH] using rev_ind; intros Hall.
  - reflexivity.
  - apply Forall_app in Hall as [Hpre Hg].
    inversion Hg as [|? ? Hgk _]; subst.
    rewrite installs_snoc, install_top, length_app. cbn [length].
    rewrite Nat.add_1_r. unfold skip_arrive at 1.
    rewrite install_lookup_new. cbn [handler kind set_parent].
    destruct (decide (kind (handler g) = uk)); [congruence|].
    rewrite skip_to_unfold, install_lookup_new. cbn [handler parent set_parent].
    rewrite install_heap. apply skip_arrive_ext. auto.
Qed.

(** X11. Inside [mph_under(uk, body)] on a stack that has no frame of kind
    [uk] down to its root, [mph_find] returns none for every kind other
    than the UNDER kind: the fast-forward reaches the root and every
    handler on the stack is hidden. *)
Theorem under_without_handler_hides_all n k uk (pre hp : list frame) :
  k <> MPH_UNDER ->
  Forall (fun g => kind (handler g) <> uk) pre ->
  mph_find (S (S (length pre + n)))
           (install (under_frame uk) (installs pre (mkMem hp None))) k = Ok None.
Proof.
  intros Hk Hpre.
  pose proof (skip_arrive_root pre hp uk Hpre) as Hskip.
  set (M := installs pre (mkMem hp None)) in *.
  unfold mph_find. rewrite install_top.
  cbn [find_loop]. rewrite install_lookup_new. cbn [handler kind set_parent under_frame].
  destruct (decide (k = MPH_UNDER)); [contradiction|].
  destruct (decide (MPH_UNDER = MPH_UNDER)); [|congruence].
  change (read_under (set_parent (_mph_top M) (under_frame uk))) with (Some uk).
  cbv beta iota.
  rewrite skip_to_unfold, install_lookup_new. cbn [handler parent set_parent].
  rewrite install_heap.
  rewrite (skip_arrive_ext (length pre + n) (heap M) _ uk (_mph_top M) None); [reflexivity|].
  eapply skip_arrive_mono; [exact Hskip | lia].
Qed.

Lemma under_without_handler_hides_all_witness :
  mph_find 3 (install (under_frame (UserKind 0))
                      (installs [linear_frame (UserKind 1) VNull] (mkMem [] None)))
           (UserKind 1) = Ok None.
Proof.
  apply (under_without_handler_hides_all 0 (UserKind 1) (UserKind 0)
           [linear_frame (UserKind 1) VNull] []).
  - discriminate.
  - repeat constructor; discriminate.
Defined.

(** *** Walking the stack *)

Lemma walk_parents_ext n m m' ext h l :
  heap m' = heap m ++ ext ->
  walk_parents n m h = Ok l ->
  walk_parents n m' h = Ok l.
Proof.
  intros Hheap. revert h l. induction n as [|n IH]; intros h l; simpl; [discriminate|].
  destruct h as [a|]; [|auto].
  destruct (heap m !! a) as [f|] eqn:Ha; [|discriminate].
  rewrite Hheap, (lookup_app_l_Some _ _ _ _ Ha).
  destruct (walk_parents n m (parent (handler f))) as [l'| |] eqn:Hw; try discriminate.
  rewrite (IH _ _ Hw). auto.
Qed.

Lemma walk_install n fr m l :
  walk_parents n m (mph_top m) = Ok l ->
  walk_parents (S n) (install fr m) (mph_top (install fr m)) = Ok (length (heap m) :: l).
Proof.
  intros Hw. unfold mph_top in *. rewrite install_top.
  cbn [walk_parents mph_parent]. rewrite install_lookup_new.
  cbn [handler parent set_parent].
  rewrite (walk_parents_ext n m (install fr m) _ _ l (install_heap fr m) Hw).
  reflexivity.
Qed.

Lemma installs_length frs m :
  length (heap (installs frs m)) = length (heap m) + length frs.
Proof.
  revert m. induction frs as [|fr frs IH]; intros m; simpl; [lia|].
  rewrite IH, install_heap, length_app. simpl. lia.
Qed.

(** X12. The shadow stack is a stack: after installing the frames [frs],
    outermost first, on a stack whose walk along [mph_parent] is [l],
    the walk from [mph_top()] meets the new frames, innermost first, and
    then [l]; it ends at the root, so the chain has no cycle. *)
Theorem walk_after_installs n (frs : list frame) (m : mem) l :
  walk_parents n m (mph_top m) = Ok l ->
  walk_parents (length frs + n) (installs frs m) (mph_top (installs frs m))
  = Ok (rev (seq (length (heap m)) (length frs)) ++ l).
Proof.
  intros Hw. induction frs as [|g frs IH] using rev_ind.
  - exact Hw.
  - rewrite installs_snoc, length_app. cbn [length].
    rewrite Nat.add_1_r, seq_S, rev_app_distr. cbn [rev app Nat.add].
    rewrite <- installs_length.
    apply walk_install. exact IH.
Qed.

Lemma walk_after_installs_witness :
  walk_parents 4
    (installs [linear_frame (UserKind 0) VNull; under_frame (UserKind 0)]
              (install (linear_frame (UserKind 1) VNull) (mkMem [] None)))
    (mph_top (installs [linear_frame (UserKind 0) VNull; under_frame (UserKind 0)]
                       (install (linear_frame (UserKind 1) VNull) (mkMem [] None))))
  = Ok [2; 1; 0].
Proof.
  apply (walk_after_installs 2 [linear_frame (UserKind 0) VNull; under_frame (UserKind 0)]
           (install (linear_frame (UserKind 1) VNull) (mkMem [] None)) [0]).
  reflexivity.
Defined.

(** ** More on the yield path *)

Lemma split_at_prompt_app p K K1 K2 X :
  split_at_prompt p K = Some (K1, K2) ->
  split_at_prompt p (K1 ++ X) = Some (K1, X).
Proof.
  revert K1. induction K as [|fr K IH]; intros K1; simpl; [discriminate|].
  destruct fr as [k|c|q].
  - destruct (split_at_prompt p K) as [[A B]|] eqn:Hs; [|discriminate].
    intros [= <- <-]. simpl. rewrite (IH A eq_refl). reflexivity.
  - destruct (split_at_prompt p K) as [[A B]|] eqn:Hs; [|discriminate].
    intros [= <- <-]. simpl. rewrite (IH A eq_refl). reflexivity.
  - destruct (decide (q = p)) as [->|Hne].
    + intros [= <- <-]. simpl. destruct (decide (p = p)); [reflexivity|congruence].
    + destruct (split_at_prompt p K) as [[A B]|] eqn:Hs; [|discriminate].
      intros [= <- <-]. simpl. destruct (decide (q = p)); [contradiction|].
      rewrite (IH A eq_refl). reflexivity.
Qed.

Lemma store_parent_lookup h p m fr :
  heap m !! h = Some fr ->
  heap (store_parent h p m) !! h = Some (set_parent p fr).
Proof.
  intros Hh. unfold store_parent. rewrite Hh. cbn [heap].
  apply list_lookup_insert_eq. eapply lookup_lt_Some; eauto.
Qed.

Section YieldPath.

Variable user_unwind : nat -> val -> val -> prog.
Variable should_unwind : mph_resume_t -> bool.

#[local] Abbreviation exec := (run user_unwind should_unwind).

(** X13. Yielding or aborting to a frame whose [prompt] is null, the frame
    of a linear handler, stops at the assertion
    [mph_is_prompt_handler(h)]: nothing is yielded and the store is
    untouched. *)
Theorem yield_to_non_prompt_fails (b once : bool) h fr fn arg k K s n :
  heap (st_mem s) !! h = Some fr ->
  prompt (handler fr) = PromptNull ->
  exec (S (S n)) (let* x := mph_yield_to_internal b once h fn arg in k x, K, s) = Stuck s /\
  exec (S (S n)) (let* x := mph_abort_to h arg in k x, K, s) = Stuck s.
Proof.
  intros Hh Hp. split.
  - unfold mph_yield_to_internal, load. cbn [run step bind]. rewrite Hh, Hp. reflexivity.
  - unfold mph_abort_to, load. cbn [run step bind]. rewrite Hh, Hp. reflexivity.
Qed.

(** X14. Detach: when the handler-side function of a yield to the prompt
    handler [h] starts, outside the prompt of [h], [_mph_top] is the parent
    of [h], no frame has changed, and the function has received a fresh
    live token, the address of the [hdata] field of [h] and [arg]. *)
Theorem yield_detaches (b once : bool) h fr p fn arg k K K1 K2 s :
  heap (st_mem s) !! h = Some fr ->
  prompt (handler fr) = PromptSome p ->
  split_at_prompt p K = Some (K1, K2) ->
  exists s' tok,
    exec 4 (let* x := mph_yield_to_internal b once h fn arg in k x, K, s)
    = Running (fn (length (st_resumes s)) (VHdataField h) arg, K2, s') /\
    mph_top (st_mem s') = parent (handler fr) /\
    heap (st_mem s') = heap (st_mem s) /\
    live_token (length (st_resumes s)) s' = Some tok /\
    r_stack tok = K1 /\ r_multi tok = negb once /\
    st_resumes s' = st_resumes s ++ [tok].
Proof.
  intros Hh Hp Hsplit.
  eexists. eexists. split; [apply (run_yield _ _ b once h fr p); eassumption|].
  cbn [st_mem st_resumes]. rewrite live_token_new.
  repeat split.
Qed.

(** X15. Re-entry: when the substrate yield returns an envelope without
    [unwind] into [mph_yield_to_internal], the envelope's result is
    returned; afterwards [_mph_top] is the top saved at the yield and the
    parent of [h] is that same saved top, whatever [_mph_top] and the
    parent of [h] were at re-entry; no other field of any frame changes. *)
Theorem reentry_relinks (b : bool) h fr yt q k K s :
  heap (st_mem s) !! h = Some fr ->
  exists s',
    exec 4 (let* x := yield_relink b h yt (VResumeEnv q false) in k x, K, s)
    = Running (k q, K, s') /\
    mph_top (st_mem s') = yt /\
    mph_parent (st_mem s') (Some h) = Ok yt /\
    (forall x f, heap (st_mem s) !! x = Some f ->
       exists f', heap (st_mem s') !! x = Some f' /\
                  (x <> h -> f' = f) /\
                  prompt (handler f') = prompt (handler f) /\
                  kind (handler f') = kind (handler f) /\
                  hdata (handler f') = hdata (handler f) /\
                  tail f' = tail f).
Proof.
  intros Hh.
  exists (with_mem (store_parent h yt (set_top yt (st_mem s))) s).
  split; [apply (run_relink _ _ b h fr); exact Hh|].
  cbn [with_mem st_mem].
  assert (Hl : heap (store_parent h yt (set_top yt (st_mem s))) !! h
               = Some (set_parent yt fr)).
  { apply store_parent_lookup. exact Hh. }
  split; [|split].
  - unfold store_parent. cbn [heap set_top]. rewrite Hh. reflexivity.
  - unfold mph_parent. rewrite Hl. reflexivity.
  - intros x f Hx. destruct (decide (x = h)) as [->|Hne].
    + exists (set_parent yt fr). rewrite Hh in Hx. injection Hx as <-.
      split; [exact Hl|]. repeat split. intros Hc. congruence.
    + exists f. split; [|repeat split].
      unfold store_parent. cbn [heap set_top]. rewrite Hh. cbn [heap].
      rewrite list_lookup_insert_ne by congruence. exact Hx.
Qed.

(** X16. Forced unwind: when the handler-side function of a yield made
    directly in the body of the prompt handler [h] consumes its token with
    [mph_resume_unwind], control comes back to it right after that call,
    outside the prompt: the continuation [k] of the yield site is never
    run.  In the C++ build the yield site throws and [mph_start] of [h]
    catches; in the C build the yield site aborts to the prompt of [h]. *)
Theorem forced_unwind_abandons_yield (b once : bool) h fr p arg post k K K1 K2 s :
  heap (st_mem s) !! h = Some fr ->
  prompt (handler fr) = PromptSome p ->
  _mph_top (st_mem s) = Some h ->
  split_at_prompt p K = Some (K1, K2) ->
  (b = true -> K1 = start_frames h ++ [KPrompt p]) ->
  exists n s',
    exec n (let* x := mph_yield_to_internal b once h
                        (fun r _ _ => mph_resume_unwind r ;;; post) arg in k x, K, s)
    = Running (post, K2, s').
Proof.
  intros Hh Hp Htop Hsplit HK1.
  pose proof (run_yield user_unwind should_unwind b once h fr p
                (fun r _ _ => mph_resume_unwind r ;;; post) arg k K K1 K2 s Hh Hp Hsplit)
    as Hy.
  set (tok := mkResume (fun v => let* x := yield_relink b h (_mph_top (st_mem s)) v in k x)
                       K1 (negb once) true) in *.
  set (sy := mkState (set_top (parent (handler fr)) (st_mem s)) (st_resumes s ++ [tok])
                     (st_prompts s)) in *.
  set (sr := if negb once then sy else release (length (st_resumes s)) sy).
  assert (Hr : exec 1 (mph_resume_unwind (length (st_resumes s)) ;;; post, K2, sy)
               = Running (let* x := yield_relink b h (_mph_top (st_mem s))
                                      (VResumeEnv VNull true) in k x,
                          K1 ++ KRet (fun _ => post) :: K2, sr)).
  { unfold mph_resume_unwind. cbn [run step bind]. unfold sy at 1.
    rewrite live_token_new. reflexivity. }
  assert (Hhr : heap (st_mem sr) !! h = Some fr).
  { unfold sr. destruct (negb once); [|rewrite st_mem_release]; exact Hh. }
  destruct b.
  - rewrite (HK1 eq_refl) in *.
    pose proof (run_relink_unwind user_unwind should_unwind h fr (_mph_top (st_mem s)) VNull k
                  ((start_frames h ++ [KPrompt p]) ++ KRet (fun _ => post) :: K2) sr Hhr)
      as Hrl.
    set (su := with_mem (store_parent h (_mph_top (st_mem s))
                           (set_top (_mph_top (st_mem s)) (st_mem sr))) sr) in *.
    assert (Htu : _mph_top (st_mem su) = Some h).
    { unfold su, store_parent. cbn [with_mem st_mem set_top heap]. rewrite Hhr. exact Htop. }
    assert (Hhu : heap (st_mem su) !! h = Some (set_parent (_mph_top (st_mem s)) fr)).
    { unfold su. cbn [with_mem st_mem]. apply store_parent_lookup. exact Hhr. }
    pose proof (run_throw_raii user_unwind should_unwind
                  (mkUnwind h Fn_mph_unwind_fun VNull) h _
                  ([KCatch (start_catch h (VLocal h)); KRet Ret] ++
                   [KPrompt p] ++ KRet (fun _ => post) :: K2) su Htu Hhu) as Ht.
    exists (4 + (1 + (4 + (6 + 4)))). eexists.
    eapply run_trans; [exact Hy|].
    eapply run_trans; [exact Hr|].
    eapply run_trans; [exact Hrl|].
    unfold start_frames. rewrite <- !app_assoc.
    eapply run_trans; [exact Ht|].
    cbn [run step app]. unfold start_catch. cbn [target ufun uarg].
    destruct (decide (h <> h)); [congruence|]. reflexivity.
  - destruct (run_relink_unwind_c user_unwind should_unwind h fr p (_mph_top (st_mem s))
                VNull k (K1 ++ KRet (fun _ => post) :: K2) K1 (KRet (fun _ => post) :: K2) sr
                Hhr Hp (split_at_prompt_app p K K1 K2 _ Hsplit)) as (s' & Hrl & _).
    exists (4 + (1 + (7 + 1))), s'.
    eapply run_trans; [exact Hy|].
    eapply run_trans; [exact Hr|].
    eapply run_trans; [exact Hrl|].
    reflexivity.
Qed.

(** X17. Multi-shot: when the handler-side function of [mph_myield_to]
    resumes its token twice, with [q1] and then with [q2], the yield site
    returns twice, first [q1] and then [q2], and each resume returns to the
    handler side what the rest of the prompt body made of that value. *)
Theorem multi_shot_two_values (b : bool) h fr p q1 q2 (f : val -> val) arg
    (post : val -> val -> prog) K2 s :
  heap (st_mem s) !! h = Some fr ->
  prompt (handler fr) = PromptSome p ->
  exists n s',
    exec n (let* x := mph_myield_to b h
                        (fun r _ _ => let* v1 := mph_resume r q1 in
                                      let* v2 := mph_resume r q2 in post v1 v2) arg
            in Ret (f x), KPrompt p :: K2, s)
    = Running (post (f q1) (f q2), K2, s').
Proof.
  intros Hh Hp.
  assert (Hsplit : split_at_prompt p (KPrompt p :: K2) = Some ([KPrompt p], K2)).
  { simpl. destruct (decide (p = p)); [reflexivity|congruence]. }
  pose proof (run_yield user_unwind should_unwind b false h fr p
                (fun r _ _ => let* v1 := mph_resume r q1 in
                              let* v2 := mph_resume r q2 in post v1 v2)
                arg (fun x => Ret (f x)) _ _ _ s Hh Hp Hsplit) as Hy.
  set (yt := _mph_top (st_mem s)) in *.
  set (tok := mkResume (fun v => let* x := yield_relink b h yt v in Ret (f x))
                       [KPrompt p] (negb false) true) in *.
  set (sy := mkState (set_top (parent (handler fr)) (st_mem s)) (st_resumes s ++ [tok])
                     (st_prompts s)) in *.
  set (r := length (st_resumes s)) in *.
  assert (Hlive : forall m, live_token r (mkState m (st_resumes s ++ [tok]) (st_prompts s))
                            = Some tok).
  { intros m. unfold r. rewrite live_token_new. reflexivity. }
  (* first resume *)
  set (s1 := with_mem (store_parent h yt (set_top yt (st_mem sy))) sy).
  assert (H1 : exec (1 + (4 + 2))
                 (let* v1 := mph_resume r q1 in let* v2 := mph_resume r q2 in post v1 v2,
                  K2, sy)
               = Running (let* v2 := mph_resume r q2 in post (f q1) v2, K2, s1)).
  { eapply run_trans.
    - unfold mph_resume. cbn [run step bind]. unfold sy at 1. rewrite Hlive. reflexivity.
    - cbn [r_kont r_stack r_multi tok negb].
      eapply run_trans; [apply (run_relink _ _ b h fr); exact Hh|]. reflexivity. }
  (* second resume *)
  assert (Hh1 : heap (st_mem s1) !! h = Some (set_parent yt fr)).
  { unfold s1. cbn [with_mem st_mem]. apply store_parent_lookup. exact Hh. }
  assert (H2 : exists s2,
             exec (1 + (4 + 2)) (let* v2 := mph_resume r q2 in post (f q1) v2, K2, s1)
             = Running (post (f q1) (f q2), K2, s2)).
  { eexists. eapply run_trans.
    - unfold mph_resume. cbn [run step bind]. unfold s1 at 1, sy at 1, with_mem.
      cbn [st_resumes st_prompts st_mem]. rewrite Hlive. reflexivity.
    - cbn [r_kont r_stack r_multi tok negb].
      eapply run_trans; [apply (run_relink _ _ b h (set_parent yt fr)); exact Hh1|].
      reflexivity. }
  destruct H2 as [s2 H2].
  exists (4 + ((1 + (4 + 2)) + (1 + (4 + 2)))), s2.
  eapply run_trans; [exact Hy|].
  eapply run_trans; [exact H1|]. exact H2.
Qed.

(** X18. Drop: when the handler-side function of a yield to [h] disposes
    of its token with [mph_resume_drop] and the substrate does not advise
    to unwind, the continuation of the yield site is never run, the token
    is released, and [_mph_top] stays at the parent of [h], where it stood
    before [h] was installed. *)
Theorem yield_dropped (b once : bool) h fr p arg post k K K1 K2 s :
  heap (st_mem s) !! h = Some fr ->
  prompt (handler fr) = PromptSome p ->
  split_at_prompt p K = Some (K1, K2) ->
  should_unwind (length (st_resumes s)) = false ->
  exists s',
    exec 6 (let* x := mph_yield_to_internal b once h
                        (fun r _ _ => mph_resume_drop r ;;; post) arg in k x, K, s)
    = Running (post, K2, s') /\
    mph_top (st_mem s') = parent (handler fr) /\
    heap (st_mem s') = heap (st_mem s) /\
    live_token (length (st_resumes s)) s' = None.
Proof.
  intros Hh Hp Hsplit Hsu.
  pose proof (run_yield user_unwind should_unwind b once h fr p
                (fun r _ _ => mph_resume_drop r ;;; post) arg k K K1 K2 s Hh Hp Hsplit)
    as Hy.
  eexists. split.
  - change 6 with (4 + 2). eapply run_trans; [exact Hy|].
    unfold mph_resume_drop. cbn [bind]. rewrite run_S. cbn [step].
    rewrite live_token_new. cbn [r_live]. rewrite Hsu.
    rewrite run_S. cbn [step bind]. rewrite live_token_new. cbn [r_live run].
    reflexivity.
  - rewrite st_mem_release. cbn [st_mem]. repeat split.
    unfold live_token, release. cbn [st_resumes].
    rewrite list_lookup_middle by reflexivity. cbn [st_resumes r_kont r_stack r_multi].
    rewrite list_lookup_insert_eq.
    + reflexivity.
    + rewrite length_app. simpl. lia.
Qed.

End YieldPath.

(** ** Nested installations *)

Lemma kept_trans s1 s2 s3 : kept s1 s2 -> kept s2 s3 -> kept s1 s3.
Proof.
  intros [Ht1 [e1 Hh1]] [Ht2 [e2 Hh2]]. split; [congruence|].
  exists (e1 ++ e2). rewrite Hh2, Hh1, app_assoc. reflexivity.
Qed.

Lemma eval_prompt_normal (b : bool) k size (fn : mph_start_fun_t) arg s v s2 :
  eval (fn (VLocal (length (heap (st_mem s)))) arg)
       (mkState (install (prompt_frame (st_prompts s) k (length (heap (st_mem s)))) (st_mem s))
                (st_resumes s) (S (st_prompts s)))
  = Some (Normal v s2) ->
  kept (mkState (install (prompt_frame (st_prompts s) k (length (heap (st_mem s)))) (st_mem s))
                (st_resumes s) (S (st_prompts s))) s2 ->
  exists s', eval (mph_prompt b k size fn arg) s = Some (Normal v s') /\ kept s s'.
Proof.
  intros Hev Hkept.
  set (h := length (heap (st_mem s))) in *.
  set (sp := mkState (st_mem s) (st_resumes s) (S (st_prompts s))).
  destruct (with_handler_scoped b (prompt_frame (st_prompts s) k h)
              (fun _ => fn (VLocal h) arg) sp (Normal v s2)) as (s' & Hev' & Hk & _); eauto.
  exists s'. split; [|exact Hk].
  unfold mph_prompt. cbn [eval]. fold sp.
  rewrite eval_start. cbn [env_kind env_body env_arg].
  change (length (heap (st_mem sp))) with h.
  rewrite Hev'. reflexivity.
Qed.

Lemma nest_eval (b : bool) (t : nest) :
  forall s, exists v s', eval (nest_prog b t) s = Some (Normal v s') /\ kept s s'.
Proof.
  induction t as [v|t1 IH1 t2 IH2|k hd body IH|k size body IH|u body IH|mk from body IH];
    intros s; cbn [nest_prog].
  - exists v, s. split; [reflexivity | apply kept_refl].
  - destruct (IH1 s) as (v1 & s1 & He1 & Hk1).
    destruct (IH2 s1) as (v2 & s2 & He2 & Hk2).
    exists v2, s2. split; [|eapply kept_trans; eauto].
    rewrite eval_bind, He1. exact He2.
  - destruct (IH (with_mem (install (linear_frame k hd) (st_mem s)) s)) as (v & s2 & He & Hk).
    destruct (with_handler_scoped b (linear_frame k hd)
                (fun h => load h (fun fr => nest_prog b body)) s (Normal v s2))
      as (s' & Hev' & Hk' & _); eauto.
    unfold load. cbn [eval with_mem st_mem]. rewrite install_lookup_new. exact He.
  - destruct (IH (mkState (install (prompt_frame (st_prompts s) k (length (heap (st_mem s))))
                                   (st_mem s)) (st_resumes s) (S (st_prompts s))))
      as (v & s2 & He & Hk).
    destruct (eval_prompt_normal b k size (fun _ _ => nest_prog b body) VNull s v s2 He Hk)
      as (s' & Hev' & Hk').
    eauto.
  - destruct (IH (with_mem (install (under_frame u) (st_mem s)) s)) as (v & s2 & He & Hk).
    destruct (with_handler_scoped b (under_frame u) (fun _ => nest_prog b body) s (Normal v s2))
      as (s' & Hev' & Hk' & _); eauto.
  - destruct (IH (with_mem (install (mask_frame mk from) (st_mem s)) s)) as (v & s2 & He & Hk).
    destruct (with_handler_scoped b (mask_frame mk from) (fun _ => nest_prog b body) s
                (Normal v s2)) as (s' & Hev' & Hk' & _); eauto.
Qed.

(** X19. Stack discipline: any code made of nested and sequenced calls of
    [mph_linear_handler], [mph_prompt], [mph_under] and [mph_mask] around
    returns, in either build and from any state, returns, and then
    [mph_top()] is what it was before and every frame of the caller is
    untouched. *)
Theorem nested_installers_restore_top uu su (b : bool) (t : nest) K s :
  exists n v s',
    run uu su n (nest_prog b t, K, s) = Running (Ret v, K, s') /\
    mph_top (st_mem s') = mph_top (st_mem s) /\
    exists ext, heap (st_mem s') = heap (st_mem s) ++ ext.
Proof.
  destruct (nest_eval b t s) as (v & s' & Hev & Htop & Hheap).
  destruct (eval_run uu su _ _ _ K Hev) as [n Hn].
  exists n, v, s'. split; [exact Hn|]. split; [exact Htop | exact Hheap].
Qed.

(** ** Examples for the yield path *)

Lemma yield_to_non_prompt_fails_witness :
  run no_user_unwind never_unwind 2
    (let* x := mph_yield_to_internal true true 0 (fun _ _ _ => Ret VNull) VNull in Ret x,
     [], linear_state)
  = Stuck linear_state.
Proof.
  exact (proj1 (yield_to_non_prompt_fails no_user_unwind never_unwind true true 0
                  (set_parent None (linear_frame (UserKind 0) VNull))
                  (fun _ _ _ => Ret VNull) VNull Ret [] linear_state 0 eq_refl eq_refl)).
Defined.

Lemma yield_detaches_witness :
  exists s' tok,
    run no_user_unwind never_unwind 4
      (let* x := mph_yield_to_internal false true 0 (fun _ hd _ => Ret hd) VNull in Ret x,
       [KPrompt 0], prompt_state)
    = Running (Ret (VHdataField 0), [], s') /\
    mph_top (st_mem s') = None /\
    heap (st_mem s') = heap (st_mem prompt_state) /\
    live_token 0 s' = Some tok /\
    r_stack tok = [KPrompt 0] /\ r_multi tok = false /\
    st_resumes s' = [tok].
Proof.
  exact (yield_detaches no_user_unwind never_unwind false true 0
           (set_parent None (prompt_frame 0 (UserKind 0) 0)) 0 (fun _ hd _ => Ret hd) VNull
           Ret [KPrompt 0] [KPrompt 0] [] prompt_state eq_refl eq_refl eq_refl).
Defined.

Lemma reentry_relinks_witness :
  exists s',
    run no_user_unwind never_unwind 4
      (let* x := yield_relink false 0 (Some 0) (VResumeEnv (VWord 7) false) in Ret x,
       [], with_mem (set_top None (st_mem prompt_state)) prompt_state)
    = Running (Ret (VWord 7), [], s') /\
    mph_top (st_mem s') = Some 0 /\
    mph_parent (st_mem s') (Some 0) = Ok (Some 0).
Proof.
  destruct (reentry_relinks no_user_unwind never_unwind false 0
              (set_parent None (prompt_frame 0 (UserKind 0) 0)) (Some 0) (VWord 7) Ret []
              (with_mem (set_top None (st_mem prompt_state)) prompt_state) eq_refl)
    as (s' & Hrun & Htop & Hpar & _).
  exists s'. split; [exact Hrun|]. split; [exact Htop | exact Hpar].
Defined.

Lemma forced_unwind_abandons_yield_witness :
  exists n s',
    run no_user_unwind never_unwind n
      (let* x := mph_yield_to_internal true true 0
                   (fun r _ _ => mph_resume_unwind r ;;; Ret (VWord 5)) VNull in Ret x,
       start_frames 0 ++ [KPrompt 0], prompt_state)
    = Running (Ret (VWord 5), [], s').
Proof.
  apply (forced_unwind_abandons_yield no_user_unwind never_unwind true true 0
           (set_parent None (prompt_frame 0 (UserKind 0) 0)) 0 VNull (Ret (VWord 5)) Ret
           (start_frames 0 ++ [KPrompt 0]) (start_frames 0 ++ [KPrompt 0]) [] prompt_state);
    reflexivity.
Defined.

Lemma multi_shot_two_values_witness :
  exists n s',
    run no_user_unwind never_unwind n
      (let* x := mph_myield_to false 0
                   (fun r _ _ => let* v1 := mph_resume r (VWord 1) in
                                 let* v2 := mph_resume r (VWord 2) in
                                 Ret (VResumeEnv v1 (bool_decide (v2 = VWord 2)))) VNull
       in Ret x, [KPrompt 0], prompt_state)
    = Running (Ret (VResumeEnv (VWord 1) true), [], s').
Proof.
  exact (multi_shot_two_values no_user_unwind never_unwind false 0
           (set_parent None (prompt_frame 0 (UserKind 0) 0)) 0 (VWord 1) (VWord 2)
           (fun x => x) VNull
           (fun v1 v2 => Ret (VResumeEnv v1 (bool_decide (v2 = VWord 2)))) []
           prompt_state eq_refl eq_refl).
Defined.

Lemma yield_dropped_witness :
  exists s',
    run no_user_unwind never_unwind 6
      (let* x := mph_yield_to_internal false true 0
                   (fun r _ _ => mph_resume_drop r ;;; Ret (VWord 5)) VNull in Ret x,
       [KPrompt 0], prompt_state)
    = Running (Ret (VWord 5), [], s') /\
    mph_top (st_mem s') = None /\
    heap (st_mem s') = heap (st_mem prompt_state) /\
    live_token 0 s' = None.
Proof.
  exact (yield_dropped no_user_unwind never_unwind false true 0
           (set_parent None (prompt_frame 0 (UserKind 0) 0)) 0 VNull (Ret (VWord 5)) Ret
           [KPrompt 0] [KPrompt 0] [] prompt_state eq_refl eq_refl eq_refl eq_refl).
Defined.

(** ** After a resumed yield *)

(** C3, the code at the failing input.  A prompt handler [T] around a
    prompt handler [I]; the body of [I] yields to [T] and the handler side
    forces the unwind.  C++ build: when nothing else happened, the token
    is caught at [mph_start] of [T] and the call returns 5; when the body
    of [I] has first yielded to [I] and been resumed, the token is not
    caught at its target: the machine stops before, with [_mph_top] at the
    frame of [I] (frame 1), where the destructor of the
    [mph_with_handler] block of [T] (frame 0) asserts [_mph_top == f].
    C build: [mph_unwind_to] never calls its [fun]: with an unwind
    function that returns 1, the prompt of the target returns 1 in the
    C++ build and, whatever the unwind functions do, [arg] (here 9) in the
    C build. *)
Theorem unwind_stopped_before_target uu su :
  final_value (run uu su 200 (unwind_after_resume_scenario true false, [], init_state))
    = Some (VWord 5) /\
  is_stuck (run uu su 200 (unwind_after_resume_scenario true true, [], init_state))
    = true /\
  stuck_top (run uu su 200 (unwind_after_resume_scenario true true, [], init_state))
    = Some (Some 1) /\
  final_value (run (fun _ _ _ => Ret (VWord 1)) su 30
                 (mph_unwind_to true 0 (Fn_user 0) (VWord 9) ;;; Ret VNull,
                  start_frames 0 ++ [KPrompt 0], prompt_state))
    = Some (VWord 1) /\
  final_value (run uu su 30
                 (mph_unwind_to false 0 (Fn_user 0) (VWord 9) ;;; Ret VNull,
                  [KPrompt 0], prompt_state))
    = Some (VWord 9).
Proof. repeat split; vm_compute; reflexivity. Qed.

(** C5, the code at the failing input.  A handler [A] of kind 0 around a
    prompt handler [B] of kind 0; after [B] has returned, still inside
    [A], the search for kind 0.  When the body of [B] did not yield the
    search returns [A] (frame 0).  When the body of [B] yielded to [B] and
    was resumed, the search returns the frame of [B] (frame 1), which is
    dead: in the C build the value comes out of [A]; in the C++ build the
    search returns it at step 35 and the destructor of [A] then fails its
    assertion. *)
Theorem dead_inner_found_after_resume uu su (b : bool) :
  final_value (run uu su 200 (innermost_after_resume_scenario b false, [], init_state))
    = Some (VHandler 0) /\
  final_value (run uu su 200 (innermost_after_resume_scenario false true, [], init_state))
    = Some (VHandler 1) /\
  returned (run uu su 35 (innermost_after_resume_scenario true true, [], init_state))
    = Some (VHandler 1) /\
  is_stuck (run uu su 200 (innermost_after_resume_scenario true true, [], init_state))
    = true.
Proof. destruct b; repeat split; vm_compute; reflexivity. Qed.

(** The search inside [mph_under(k, ...)] inside [mph_linear_handler(k, ...)],
    run on the machine from any state: the call returns what [mph_find(k)]
    returned before it, and leaves the stack as it found it. *)
Lemma under_search_on_machine uu su (b : bool) k hd fuel K s r :
  k <> MPH_UNDER ->
  mph_find fuel (st_mem s) k = Ok r ->
  exists n s',
    run uu su n
      (mph_linear_handler b k hd
         (fun _ _ => mph_under b k (fun _ => user_find (S (fuel + 1)) k) VNull) VNull, K, s)
    = Running (Ret (match r with Some h => VHandler h | None => VNull end), K, s') /\
    kept s s'.
Proof.
  intros Hk Hfind.
  set (s1 := with_mem (install (linear_frame k hd) (st_mem s)) s).
  set (s2 := with_mem (install (under_frame k) (st_mem s1)) s1).
  set (v := match r with Some h => VHandler h | None => VNull end).
  assert (Hu : eval (user_find (S (fuel + 1)) k) s2 = Some (Normal v s2)).
  { pose proof (find_install_under fuel [] (linear_frame k hd) (under_frame k) (st_mem s)
                  k k r eq_refl Hk ltac:(constructor) eq_refl eq_refl Hfind) as Hf.
    change (mph_find (S (fuel + 1)) (st_mem s2) k = Ok r) in Hf.
    unfold user_find. cbn [eval]. rewrite Hf. destruct r; reflexivity. }
  destruct (with_handler_scoped b (under_frame k) (fun _ => user_find (S (fuel + 1)) k) s1
              (Normal v s2)) as (s3 & Hev3 & Hk3 & _).
  - exact Hu.
  - apply kept_refl.
  - eauto.
  - destruct (linear_handler_run uu su b k hd
                (fun _ _ => mph_under b k (fun _ => user_find (S (fuel + 1)) k) VNull) VNull K s
                (Normal v s3)) as (n & s' & Hrun & Hkept).
    + exact Hev3.
    + exact Hk3.
    + eauto.
    + exists n, s'. split; [exact Hrun | exact Hkept].
Qed.

(** Once a yield to [A] has been resumed, [A] is its own parent and the
    search inside [mph_under] arrives at [A] again: it returns [A] (frame
    0), where without the yield it returns none. *)
Lemma under_search_after_resume uu su (b : bool) :
  final_value (run uu su 200 (under_after_resume_scenario b false, [], init_state))
    = Some VNull /\
  final_value (run uu su 200 (under_after_resume_scenario b true, [], init_state))
    = Some (VHandler 0).
Proof. destruct b; split; vm_compute; reflexivity. Qed.
